(** * The Bluesky DM channel (src/channels/bluesky.ts)

    A shallow embedding of [BlueskyChannel]: the fields of the class are a
    record, every method is a function on that record, and each [async]
    method is cut at its [await]s into the synchronous segments that the
    JavaScript event loop runs without interruption.  A suspended [async]
    call is a [Task]; the environment resumes it with the outcome of the
    backend call it waits for, and may call the public methods of the
    channel in between.  Everything the code does beyond updating its own
    fields (backend calls, [console.error], the registered callback, the
    timer) is recorded in a trace of [Effect]s. *)

From stdpp Require Import gmap strings list.
From Stdlib Require Import ZArith.

Local Open Scope string_scope.
Local Open Scope list_scope.

(** ** JavaScript values *)

(** A property the code tests for truthiness is an [option string]:
    [None] is [undefined], and the empty string is falsy as well. *)
Definition truthy (v : option string) : bool :=
  match v with
  | Some (String _ _) => true
  | _ => false
  end.

(** [v || d] for a possibly undefined string [v]. *)
Definition or_else (v : option string) (d : string) : string :=
  match v with
  | Some (String a s) => String a s
  | _ => d
  end.

(** [s.length > 0], which is also the truthiness of a string [s]. *)
Definition nonempty (s : string) : bool :=
  match s with
  | EmptyString => false
  | String _ _ => true
  end.

(** [d === my] for a string [d] and a possibly undefined string [my]. *)
Definition strict_eq (d : string) (my : option string) : bool :=
  match my with
  | Some m => String.eqb d m
  | None => false
  end.

(** Thrown values are opaque; only their identity matters. *)
Definition JsError := string.

Definition TypeError : JsError := "TypeError".

(** How a statement list ends: normally, or by throwing. *)
Inductive Completion :=
  | Normal
  | Throw (e : JsError).

(** How an awaited promise settles. *)
Inductive Outcome (A : Type) :=
  | Resolved (a : A)
  | Rejected (e : JsError).
Arguments Resolved {A} a.
Arguments Rejected {A} e.

(** ** The group id: [`bsky:${convoId}`] and [groupId.replace(/^bsky:/, '')] *)

Definition bsky_prefix : string := "bsky:".

(** The template literal of line 136. *)
Definition groupId_of (convoId : string) : string :=
  bsky_prefix +:+ convoId.

(** [strip_prefix p s] is the rest of [s] after a leading [p], if [s]
    starts with [p]: the match of an anchored literal pattern. *)
Fixpoint strip_prefix (p s : string) : option string :=
  match p with
  | EmptyString => Some s
  | String a p' =>
      match s with
      | EmptyString => None
      | String b s' => if Ascii.eqb a b then strip_prefix p' s' else None
      end
  end.

(** [groupId.replace(/^bsky:/, '')] of line 73: the pattern is anchored at
    the start of the input and not global, so at most the leading
    occurrence is removed; without a match the string is returned as is. *)
Definition convoId_of (groupId : string) : string :=
  match strip_prefix bsky_prefix groupId with
  | Some rest => rest
  | None => groupId
  end.

(** ** Wire data (the shapes the code reads from the backend's answers) *)

Record MessageViewSender := { did : string }.

(** [entry.message].  [msg_sender] is [None] when the payload carries no
    [sender] object, in which case reading [sender.did] throws. *)
Record MessageView := {
  msg_type : string;
  msg_id : string;
  msg_sender : option MessageViewSender;
  msg_text : option string;
  msg_sentAt : string
}.

(** One element of [data.logs]. *)
Record LogEntry := {
  log_type : string;
  convoId : string;
  message : option MessageView
}.

(** The answer of [getLog].  [logs] is [None] when [data.logs] is not
    iterable, in which case the [for ... of] throws. *)
Record GetLogData := {
  data_cursor : option string;
  logs : option (list LogEntry)
}.

Record Member := {
  member_did : option string;
  member_handle : option string
}.

Record Convo := { members : option (list Member) }.

(** The answer of [listConvos]; [None] again stands for "not iterable". *)
Record ListConvosData := { convos : option (list Convo) }.

(** ** InboundMessage and the callback *)

Record InboundMessage := {
  im_id : string;
  im_groupId : string;
  im_sender : string;
  im_content : string;
  im_timestamp : option Z;
  im_channel : string
}.

(** What one run of the registered callback does, as far as the channel
    can tell: it returns or throws, and it may have called [stop()] on the
    channel (the one public method whose effect the loop reads back). *)
Record CallbackRun := {
  cb_stop : bool;
  cb_throw : option JsError
}.

Definition MessageCallback := InboundMessage -> CallbackRun.

(** ** The channel object *)

(** [AtpAgent] objects live in a store and are referred to by their index:
    [login] fills in the session of the agent it was called on, which need
    not be the agent the channel points to when the call returns. *)
Definition AgentRef := nat.

Record AtpAgent := {
  service : string;
  session_did : option string
}.

Record BlueskyChannel := {
  agent : option AgentRef;
  identifier : string;
  password : string;
  running : bool;
  messageCallback : option MessageCallback;
  cursor : option string;
  didHandleMap : gmap string string
}.

Definition set_agent (a : option AgentRef) (c : BlueskyChannel) : BlueskyChannel :=
  {| agent := a; identifier := identifier c; password := password c;
     running := running c; messageCallback := messageCallback c;
     cursor := cursor c; didHandleMap := didHandleMap c |}.

Definition set_credentials (i p : string) (c : BlueskyChannel) : BlueskyChannel :=
  {| agent := agent c; identifier := i; password := p;
     running := running c; messageCallback := messageCallback c;
     cursor := cursor c; didHandleMap := didHandleMap c |}.

Definition set_running (b : bool) (c : BlueskyChannel) : BlueskyChannel :=
  {| agent := agent c; identifier := identifier c; password := password c;
     running := b; messageCallback := messageCallback c;
     cursor := cursor c; didHandleMap := didHandleMap c |}.

Definition set_messageCallback (cb : option MessageCallback) (c : BlueskyChannel)
  : BlueskyChannel :=
  {| agent := agent c; identifier := identifier c; password := password c;
     running := running c; messageCallback := cb;
     cursor := cursor c; didHandleMap := didHandleMap c |}.

Definition set_cursor (k : option string) (c : BlueskyChannel) : BlueskyChannel :=
  {| agent := agent c; identifier := identifier c; password := password c;
     running := running c; messageCallback := messageCallback c;
     cursor := k; didHandleMap := didHandleMap c |}.

Definition set_didHandleMap (m : gmap string string) (c : BlueskyChannel)
  : BlueskyChannel :=
  {| agent := agent c; identifier := identifier c; password := password c;
     running := running c; messageCallback := messageCallback c;
     cursor := cursor c; didHandleMap := m |}.

(** The field initialisers of lines 22-29. *)
Definition new_channel : BlueskyChannel :=
  {| agent := None; identifier := ""; password := ""; running := false;
     messageCallback := None; cursor := None; didHandleMap := ∅ |}.

(** ** Effects *)

(** The calls to the backend (with the agent they are made on), the timer,
    [console.error], the call of the registered callback, and the
    assignment to [this.cursor] of line 118, which is recorded so that its
    place among the other effects can be stated. *)
Inductive Effect :=
  | Login (a : AgentRef) (identifier password : string)
  | ListConvos (a : AgentRef)
  | GetLog (a : AgentRef) (cursor : option string)
  | SendMessage (a : AgentRef) (convoId text : string)
  | Sleep (ms : Z)
  | ConsoleError (label : string) (err : JsError)
  | SetCursor (k : string)
  | Invoke (m : InboundMessage).

Definition is_Invoke (e : Effect) : bool :=
  match e with Invoke _ => true | _ => false end.

Definition is_ConsoleError (e : Effect) : bool :=
  match e with ConsoleError _ _ => true | _ => false end.

Definition is_SetCursor (e : Effect) : bool :=
  match e with SetCursor _ => true | _ => false end.

(** ** Suspended calls *)

(** Where an [async] method waits.  [AwaitLogin a] is [start()] at line 48,
    having called [login] on agent [a]; [AwaitSendMessage] is [send()] at
    line 75; [AwaitListConvos] is [refreshDidHandleMap()] at line 156,
    called from [poll()]; [AwaitRefresh] is [poll()] at line 110, once
    [refreshDidHandleMap()] has returned; [AwaitGetLog] is [poll()] at
    line 113 and [AwaitSleep] is [poll()] at line 148. *)
Inductive Task :=
  | AwaitLogin (a : AgentRef)
  | AwaitSendMessage
  | AwaitListConvos
  | AwaitRefresh
  | AwaitGetLog
  | AwaitSleep.

(** What the environment hands to a task when it resumes it. *)
Inductive Response :=
  | LoginDone (r : Outcome string)
  | SendMessageDone (r : Outcome unit)
  | ListConvosDone (r : Outcome ListConvosData)
  | RefreshDone
  | GetLogDone (r : Outcome GetLogData)
  | SleepDone.

(** ** What the module imports *)

(** [BLUESKY_SERVICE] and [BLUESKY_POLL_INTERVAL] come from [config.js] and
    [Date] from the host; the channel is parametric in them.
    [dateGetTime s] is [new Date(s).getTime()], [None] being [NaN]. *)
Record Env := {
  BLUESKY_SERVICE : string;
  BLUESKY_POLL_INTERVAL : Z;
  dateGetTime : string -> option Z
}.

(** ** The synchronous methods *)

(** Lines 34-37. *)
Definition configure (i p : string) (c : BlueskyChannel) : BlueskyChannel :=
  set_credentials i p c.

(** Lines 62-65. *)
Definition stop (c : BlueskyChannel) : BlueskyChannel :=
  set_agent None (set_running false c).

(** Lines 84-86. *)
Definition setTyping (_groupId : string) (_typing : bool) (c : BlueskyChannel)
  : BlueskyChannel := c.

(** Lines 91-93. *)
Definition onMessage (cb : MessageCallback) (c : BlueskyChannel) : BlueskyChannel :=
  set_messageCallback (Some cb) c.

(** Lines 98-100. *)
Definition isConfigured (c : BlueskyChannel) : bool :=
  nonempty (identifier c) && nonempty (password c).

(** ** The identity cache *)

(** [this.didHandleMap.get(did) || did] of lines 131-132. *)
Definition resolve (m : gmap string string) (d : string) : string :=
  or_else (m !! d) d.

(** Whether the right operand of that [||] is the one returned. *)
Definition resolve_falls_back (m : gmap string string) (d : string) : bool :=
  negb (truthy (m !! d)).

(** Lines 159-161: one member. *)
Definition upsert_member (mb : Member) (m : gmap string string) : gmap string string :=
  match member_did mb, member_handle mb with
  | Some d, Some h =>
      if nonempty d && nonempty h then <[d := h]> m else m
  | _, _ => m
  end.

(** Lines 158-162: the members of one conversation. *)
Fixpoint upsert_members (ms : list Member) (m : gmap string string)
  : gmap string string :=
  match ms with
  | [] => m
  | mb :: ms' => upsert_members ms' (upsert_member mb m)
  end.

(** Lines 157-163.  A conversation whose [members] cannot be iterated
    throws; what was written to the map before stays written. *)
Fixpoint upsert_convos (cs : list Convo) (m : gmap string string)
  : gmap string string * Completion :=
  match cs with
  | [] => (m, Normal)
  | cv :: cs' =>
      match members cv with
      | None => (m, Throw TypeError)
      | Some ms => upsert_convos cs' (upsert_members ms m)
      end
  end.

(** [refreshDidHandleMap()] up to its [await] (lines 153-156): without an
    agent it returns at once, and [poll()] then only waits for that
    return. *)
Definition refresh_enter (c : BlueskyChannel) : list Effect * Task :=
  match agent c with
  | None => ([], AwaitRefresh)
  | Some a => ([ListConvos a], AwaitListConvos)
  end.

(** [refreshDidHandleMap()] after its [await] (lines 156-166).  The
    [catch] has no binding and an empty body: whatever is thrown by
    [listConvos] or by the loops is dropped there. *)
Definition refresh_resume (r : Outcome ListConvosData) (c : BlueskyChannel)
  : BlueskyChannel :=
  match r with
  | Rejected _ => c
  | Resolved data =>
      match convos data with
      | None => c
      | Some cs => set_didHandleMap (fst (upsert_convos cs (didHandleMap c))) c
      end
  end.

Section Channel.

Variable env : Env.

(** ** One element of the batch (lines 123-141) *)

Definition logCreateMessage : string := "chat.bsky.convo.defs#logCreateMessage".
Definition messageView : string := "chat.bsky.convo.defs#messageView".

(** The object literal of lines 134-141. *)
Definition inbound (entry : LogEntry) (msgView : MessageView) (senderHandle : string)
  : InboundMessage :=
  {| im_id := msg_id msgView;
     im_groupId := groupId_of (convoId entry);
     im_sender := senderHandle;
     im_content := or_else (msg_text msgView) "[Non-text message]";
     im_timestamp := dateGetTime env (msg_sentAt msgView);
     im_channel := "bluesky" |}.

(** [this.messageCallback?.(m)]: nothing happens without a callback; a
    callback that calls [stop()] changes the channel under the loop. *)
Definition invoke_callback (m : InboundMessage) (c : BlueskyChannel)
  : BlueskyChannel * list Effect * Completion :=
  match messageCallback c with
  | None => (c, [], Normal)
  | Some cb =>
      let r := cb m in
      (if cb_stop r then stop c else c,
       [Invoke m],
       match cb_throw r with Some e => Throw e | None => Normal end)
  end.

(** The body of the [for] loop; [Normal] covers [continue]. *)
Definition process_log (myDid : option string) (log : LogEntry) (c : BlueskyChannel)
  : BlueskyChannel * list Effect * Completion :=
  if negb (String.eqb (log_type log) logCreateMessage) then (c, [], Normal)
  else
    match message log with
    | None => (c, [], Normal)
    | Some msg =>
        if negb (String.eqb (msg_type msg) messageView) then (c, [], Normal)
        else
          match msg_sender msg with
          | None => (c, [], Throw TypeError)
          | Some s =>
              if strict_eq (did s) myDid then (c, [], Normal)
              else
                invoke_callback
                  (inbound log msg (resolve (didHandleMap c) (did s))) c
          end
    end.

(** Lines 122-142: the elements in order, up to the first one that
    throws. *)
Fixpoint process_logs (myDid : option string) (ls : list LogEntry) (c : BlueskyChannel)
  : BlueskyChannel * list Effect * Completion :=
  match ls with
  | [] => (c, [], Normal)
  | log :: ls' =>
      match process_log myDid log c with
      | (c1, tr1, Normal) =>
          let '(c2, tr2, k) := process_logs myDid ls' c1 in
          (c2, tr1 ++ tr2, k)
      | (c1, tr1, Throw e) => (c1, tr1, Throw e)
      end
  end.

(** ** The polling loop (lines 106-150) *)

(** How a stretch of the [try] block ends: at an [await], at the end of
    the block, or by throwing. *)
Inductive BodyEnd :=
  | Awaiting (t : Task)
  | Completed
  | Threw (e : JsError).

(** Lines 112-115, once [await this.refreshDidHandleMap()] has returned:
    [this.agent.withProxy] throws when [stop()] has cleared the agent in
    the meantime. *)
Definition try_after_refresh (c : BlueskyChannel)
  : BlueskyChannel * list Effect * BodyEnd :=
  match agent c with
  | None => (c, [], Threw TypeError)
  | Some a => (c, [GetLog a (cursor c)], Awaiting AwaitGetLog)
  end.

(** Lines 117-119. *)
Definition store_cursor (data : GetLogData) (c : BlueskyChannel)
  : BlueskyChannel * list Effect :=
  match data_cursor data with
  | Some (String x k) => (set_cursor (Some (String x k)) c, [SetCursor (String x k)])
  | _ => (c, [])
  end.

(** Lines 113-142, once [getLog] has settled.  [this.agent.session?.did]
    throws without an agent and is [undefined] without a session. *)
Definition try_after_getLog (heap : list AtpAgent) (r : Outcome GetLogData)
    (c : BlueskyChannel) : BlueskyChannel * list Effect * BodyEnd :=
  match r with
  | Rejected e => (c, [], Threw e)
  | Resolved data =>
      let '(c1, tr1) := store_cursor data c in
      match agent c1 with
      | None => (c1, tr1, Threw TypeError)
      | Some a =>
          let myDid := heap !! a ≫= session_did in
          match logs data with
          | None => (c1, tr1, Threw TypeError)
          | Some ls =>
              match process_logs myDid ls c1 with
              | (c2, tr2, Normal) => (c2, tr1 ++ tr2, Completed)
              | (c2, tr2, Throw e) => (c2, tr1 ++ tr2, Threw e)
              end
          end
      end
  end.

(** Lines 143-148: the [catch] clause and the [sleep] after the [try]
    statement.  [break] leaves the loop, and [poll()] returns. *)
Definition after_try (s : BlueskyChannel * list Effect * BodyEnd)
  : BlueskyChannel * list Effect * option Task :=
  let '(c, tr, e) := s in
  match e with
  | Awaiting t => (c, tr, Some t)
  | Completed => (c, tr ++ [Sleep (BLUESKY_POLL_INTERVAL env)], Some AwaitSleep)
  | Threw err =>
      if negb (running c) then (c, tr, None)
      else (c,
            tr ++ [ConsoleError "Bluesky poll error:" err;
                   Sleep (BLUESKY_POLL_INTERVAL env)],
            Some AwaitSleep)
  end.

(** Line 107 and the first statement of the [try] block: either the loop
    is left and [poll()] returns, or [refreshDidHandleMap()] is entered. *)
Definition poll_head (c : BlueskyChannel) : list Effect * option Task :=
  if running c && bool_decide (is_Some (agent c)) then
    let '(tr, t) := refresh_enter c in (tr, Some t)
  else ([], None).

(** Resuming [poll()], or the [refreshDidHandleMap()] it called. *)
Definition poll_resume (heap : list AtpAgent) (t : Task) (r : Response)
    (c : BlueskyChannel) : option (BlueskyChannel * list Effect * option Task) :=
  match t, r with
  | AwaitListConvos, ListConvosDone r => Some (refresh_resume r c, [], Some AwaitRefresh)
  | AwaitRefresh, RefreshDone => Some (after_try (try_after_refresh c))
  | AwaitGetLog, GetLogDone r => Some (after_try (try_after_getLog heap r c))
  | AwaitSleep, SleepDone => Some (c, fst (poll_head c), snd (poll_head c))
  | _, _ => None
  end.

(** ** The channel among its suspended calls *)

(** The channel object, the store of agents, and the calls of [start()],
    [send()] and [poll()] that are waiting. *)
Record World := {
  chan : BlueskyChannel;
  heap : list AtpAgent;
  pool : list Task
}.

Definition new_world : World :=
  {| chan := new_channel; heap := []; pool := [] |}.

(** The pool once task [i] has been replaced by what it became. *)
Definition splice (i : nat) (ts p : list Task) : list Task :=
  take i p ++ ts ++ drop (S i) p.

(** What a call or a resumption leaves behind: the world, the trace, and
    how the promise of the [async] method settled if it did. *)
Definition Run : Type := World * list Effect * option (Outcome unit).

(** [start()] up to its [await] (lines 43-48). *)
Definition start (w : World) : Run :=
  let c := chan w in
  if negb (nonempty (identifier c)) || negb (nonempty (password c)) then
    (w, [], Some (Resolved tt))
  else if running c then (w, [], Some (Resolved tt))
  else
    let a := length (heap w) in
    ({| chan := set_agent (Some a) c;
        heap := heap w ++ [{| service := BLUESKY_SERVICE env; session_did := None |}];
        pool := pool w ++ [AwaitLogin a] |},
     [Login a (identifier c) (password c)],
     None).

(** What a successful [login] does to the agent it was called on. *)
Definition logged_in (d : string) (ag : AtpAgent) : AtpAgent :=
  {| service := service ag; session_did := Some d |}.

(** [start()] after its [await] (lines 48-56), as task [i].  [this.poll()]
    is not awaited: [poll()] runs up to its own first [await] and stays
    behind as a task of its own. *)
Definition start_resume (i : nat) (a : AgentRef) (r : Outcome string) (w : World) : Run :=
  match r with
  | Rejected err =>
      ({| chan := set_agent None (chan w);
          heap := heap w;
          pool := splice i [] (pool w) |},
       [ConsoleError "Bluesky login failed:" err],
       Some (Resolved tt))
  | Resolved d =>
      let c := set_running true (chan w) in
      let '(tr, next) := poll_head c in
      ({| chan := c;
          heap := alter (logged_in d) a (heap w);
          pool := splice i (option_list next) (pool w) |},
       tr,
       Some (Resolved tt))
  end.

(** [send()] up to its [await] (lines 72-75). *)
Definition send (groupId text : string) (w : World) : Run :=
  match agent (chan w) with
  | None => (w, [], Some (Resolved tt))
  | Some a =>
      ({| chan := chan w; heap := heap w; pool := pool w ++ [AwaitSendMessage] |},
       [SendMessage a (convoId_of groupId) text],
       None)
  end.

(** [send()] after its [await]: there is no [try], so the promise of
    [send()] settles the way [sendMessage] did. *)
Definition send_resume (i : nat) (r : Outcome unit) (w : World) : Run :=
  ({| chan := chan w; heap := heap w; pool := splice i [] (pool w) |}, [], Some r).

(** The environment resumes task [i] with [r]; [None] when there is no
    such task or [r] is not what it waits for. *)
Definition resume (i : nat) (r : Response) (w : World) : option Run :=
  match pool w !! i with
  | None => None
  | Some (AwaitLogin a) =>
      match r with
      | LoginDone o => Some (start_resume i a o w)
      | _ => None
      end
  | Some AwaitSendMessage =>
      match r with
      | SendMessageDone o => Some (send_resume i o w)
      | _ => None
      end
  | Some t =>
      match poll_resume (heap w) t r (chan w) with
      | None => None
      | Some (c, tr, next) =>
          Some ({| chan := c; heap := heap w;
                   pool := splice i (option_list next) (pool w) |},
                tr,
                match next with None => Some (Resolved tt) | Some _ => None end)
      end
  end.

(** What can happen to a world: a call of a public method, or the
    resumption of a waiting task. *)
Inductive Action :=
  | Configure (identifier password : string)
  | Start
  | Stop
  | Send (groupId text : string)
  | SetTyping (groupId : string) (typing : bool)
  | OnMessage (cb : MessageCallback)
  | IsConfigured
  | Resume (i : nat) (r : Response).

Definition on_chan (f : BlueskyChannel -> BlueskyChannel) (w : World) : Run :=
  ({| chan := f (chan w); heap := heap w; pool := pool w |}, [], None).

Definition step (a : Action) (w : World) : option Run :=
  match a with
  | Configure i p => Some (on_chan (configure i p) w)
  | Start => Some (start w)
  | Stop => Some (on_chan stop w)
  | Send g t => Some (send g t w)
  | SetTyping g b => Some (on_chan (setTyping g b) w)
  | OnMessage cb => Some (on_chan (onMessage cb) w)
  | IsConfigured => Some (w, [], None)
  | Resume i r => resume i r w
  end.

(** The worlds a channel can be in. *)
Inductive reachable : World -> Prop :=
  | reachable_new : reachable new_world
  | reachable_step a w w' tr s :
      reachable w -> step a w = Some (w', tr, s) -> reachable w'.

(** A run of actions, with the concatenated trace. *)
Fixpoint run (acts : list Action) (w : World) : option (World * list Effect) :=
  match acts with
  | [] => Some (w, [])
  | a :: acts' =>
      match step a w with
      | None => None
      | Some (w1, tr1, _) =>
          match run acts' w1 with
          | None => None
          | Some (w2, tr2) => Some (w2, tr1 ++ tr2)
          end
      end
  end.

End Channel.

(** ** Vocabulary of the properties *)

(** The only thing that happens to the channel while a batch is processed
    is a [stop()] from inside the callback. *)
Definition stopped_or_same (c c' : BlueskyChannel) : Prop :=
  c' = c \/ c' = stop c.

(** Ids and handles in the identity cache are non-empty. *)
Definition cache_wf (m : gmap string string) : Prop :=
  forall d h, m !! d = Some h -> d <> "" /\ h <> "".

(** The event carries a message whose sender is [me]. *)
Definition authored_by (me : string) (log : LogEntry) : bool :=
  match message log with
  | Some msg =>
      match msg_sender msg with
      | Some s => String.eqb (did s) me
      | None => false
      end
  | None => false
  end.

(** The event is a "message created" event with a "message view" payload. *)
Definition actionable (log : LogEntry) : bool :=
  String.eqb (log_type log) logCreateMessage &&
  match message log with
  | Some msg => String.eqb (msg_type msg) messageView
  | None => false
  end.

(** The batch of [data] with only the events [keep] selects. *)
Definition restrict_logs (keep : LogEntry -> bool) (data : GetLogData) : GetLogData :=
  {| data_cursor := data_cursor data;
     logs := option_map (List.filter keep) (logs data) |}.

(** The non-empty cursor that action [a] delivers, when [a] is the
    successful return of the [getLog] call a [poll()] is waiting for. *)
Definition fetched_cursor (a : Action) (w : World) : option string :=
  match a with
  | Resume i (GetLogDone (Resolved data)) =>
      match pool w !! i with
      | Some AwaitGetLog =>
          if truthy (data_cursor data) then data_cursor data else None
      | _ => None
      end
  | _ => None
  end.

(** [err] is written to the console somewhere in [tr]. *)
Definition logged (err : JsError) (tr : list Effect) : Prop :=
  exists label, In (ConsoleError label err) tr.

(** The cursor after the stores recorded in [tr], starting from [k0]. *)
Definition last_stored (k0 : option string) (tr : list Effect) : option string :=
  fold_left (fun k e => match e with SetCursor k' => Some k' | _ => k end) tr k0.

(** ** Sample data *)

Definition env0 : Env :=
  {| BLUESKY_SERVICE := "https://bsky.social";
     BLUESKY_POLL_INTERVAL := 5000%Z;
     dateGetTime := fun s =>
       if String.eqb s "2026-01-01T00:00:00Z" then Some 1767225600000%Z else None |}.

Definition quiet : MessageCallback :=
  fun _ => {| cb_stop := false; cb_throw := None |}.

Definition failing : MessageCallback :=
  fun _ => {| cb_stop := false; cb_throw := Some "callback failed" |}.

Definition created (who text : string) : LogEntry :=
  {| log_type := logCreateMessage;
     convoId := "abc123";
     message := Some {| msg_type := messageView; msg_id := "m1";
                        msg_sender := Some {| did := who |};
                        msg_text := Some text;
                        msg_sentAt := "2026-01-01T00:00:00Z" |} |}.

Definition convos0 : ListConvosData :=
  {| convos := Some [ {| members := Some
       [ {| member_did := Some "did:plc:you"; member_handle := Some "you.bsky.social" |};
         {| member_did := Some "did:plc:nohandle"; member_handle := Some "" |} ] |} ] |}.

Definition hello : InboundMessage :=
  {| im_id := "m1"; im_groupId := "bsky:abc123"; im_sender := "you.bsky.social";
     im_content := "hello"; im_timestamp := Some 1767225600000%Z;
     im_channel := "bluesky" |}.

Definition hello_batch : GetLogData :=
  {| data_cursor := Some "c1"; logs := Some [created "did:plc:you" "hello"] |}.

(** A read receipt, and a "message created" event for a deleted message. *)
Definition read_receipt : LogEntry :=
  {| log_type := "chat.bsky.convo.defs#logReadMessage";
     convoId := "abc123";
     message := Some {| msg_type := messageView; msg_id := "m1";
                        msg_sender := Some {| did := "did:plc:you" |};
                        msg_text := Some "hello";
                        msg_sentAt := "2026-01-01T00:00:00Z" |} |}.

Definition deleted_created : LogEntry :=
  {| log_type := logCreateMessage;
     convoId := "abc123";
     message := Some {| msg_type := "chat.bsky.convo.defs#deletedMessageView";
                        msg_id := "m2";
                        msg_sender := Some {| did := "did:plc:you" |};
                        msg_text := None;
                        msg_sentAt := "2026-01-01T00:00:00Z" |} |}.

(** A channel that is logged in as [did:plc:me], with [poll()] waiting at
    the named point. *)
Definition logged_in_world (t : Task) : World :=
  {| chan := {| agent := Some 0; identifier := "me.bsky.social"; password := "app-pw";
                running := true; messageCallback := Some quiet;
                cursor := Some "c0";
                didHandleMap := {[ "did:plc:you" := "you.bsky.social" ]} |};
     heap := [ {| service := "https://bsky.social"; session_did := Some "did:plc:me" |} ];
     pool := [t] |}.

(** How to get there: configure, register the callback, start, log in,
    and go once around the loop. *)
Definition warm_up : list Action :=
  [ Configure "me.bsky.social" "app-pw"; OnMessage quiet; Start;
    Resume 0 (LoginDone (Resolved "did:plc:me"));
    Resume 0 (ListConvosDone (Resolved convos0));
    Resume 0 RefreshDone;
    Resume 0 (GetLogDone (Resolved {| data_cursor := Some "c0"; logs := Some [] |}));
    Resume 0 SleepDone ].

(** One iteration in which [listConvos] fails and [getLog] returns an
    empty batch and no cursor. *)
Definition failed_refresh_iteration : list Action :=
  [ Resume 0 (ListConvosDone (Rejected "network error"));
    Resume 0 RefreshDone;
    Resume 0 (GetLogDone (Resolved {| data_cursor := None; logs := Some [] |}));
    Resume 0 SleepDone ].

(** [stop()] has been called while the [login] of a [start()] is
    pending. *)
Definition stopped_at_login : World :=
  {| chan := {| agent := None; identifier := "me.bsky.social"; password := "app-pw";
                running := false; messageCallback := None; cursor := None;
                didHandleMap := ∅ |};
     heap := [ {| service := "https://bsky.social"; session_did := None |} ];
     pool := [AwaitLogin 0] |}.

(** Configured, not started. *)
Definition configured_world : World :=
  {| chan := configure "me.bsky.social" "app-pw" new_channel;
     heap := []; pool := [] |}.

(** A "message created" event whose message view carries no sender. *)
Definition senderless : LogEntry :=
  {| log_type := logCreateMessage;
     convoId := "abc123";
     message := Some {| msg_type := messageView; msg_id := "m3";
                        msg_sender := None;
                        msg_text := Some "?";
                        msg_sentAt := "2026-01-01T00:00:00Z" |} |}.

(** Logged in, no callback registered. *)
Definition deaf_world (t : Task) : World :=
  {| chan := set_messageCallback None (chan (logged_in_world t));
     heap := heap (logged_in_world t);
     pool := pool (logged_in_world t) |}.

(** The channel's own message, as the callback would get it. *)
Definition echo : InboundMessage :=
  {| im_id := "m1"; im_groupId := "bsky:abc123"; im_sender := "did:plc:me";
     im_content := "echo"; im_timestamp := Some 1767225600000%Z;
     im_channel := "bluesky" |}.

(** [start()] has been called and its [login] is pending. *)
Definition login_pending_world : World :=
  {| chan := set_agent (Some 0) (configure "me.bsky.social" "app-pw" new_channel);
     heap := [ {| service := "https://bsky.social"; session_did := None |} ];
     pool := [AwaitLogin 0] |}.

(** [stop()] was called during that [login], which then succeeded. *)
Definition flagged_world : World :=
  {| chan := set_running true (configure "me.bsky.social" "app-pw" new_channel);
     heap := [ {| service := "https://bsky.social"; session_did := Some "did:plc:me" |} ];
     pool := [] |}.

(** ** Vocabulary of the further properties *)

(** The action is a call of [configure]; of [onMessage]. *)
Definition is_Configure (a : Action) : bool :=
  match a with Configure _ _ => true | _ => false end.

Definition is_OnMessage (a : Action) : bool :=
  match a with OnMessage _ => true | _ => false end.

(** The message the loop body hands to the callback for [log], if it
    hands one: the event is actionable, its sender can be read and is not
    [my]. *)
Definition delivery (env : Env) (cache : gmap string string) (my : option string)
    (log : LogEntry) : option InboundMessage :=
  if actionable log then
    match message log with
    | Some msg =>
        match msg_sender msg with
        | Some s =>
            if strict_eq (did s) my then None
            else Some (inbound env log msg (resolve cache (did s)))
        | None => None
        end
    | None => None
    end
  else None.

(** The loop body can read the sender of [log] where it needs it. *)
Definition sender_readable (log : LogEntry) : bool :=
  if actionable log then
    match message log with
    | Some msg => match msg_sender msg with Some _ => true | None => false end
    | None => true
    end
  else true.

(** Member [mb] is written to the cache, under key [d]. *)
Definition writes_key (d : string) (mb : Member) : bool :=
  match member_did mb, member_handle mb with
  | Some d', Some h => String.eqb d' d && nonempty d' && nonempty h
  | _, _ => false
  end.


(** [g] starts with ["bsky:"]. *)
Definition has_prefix (g : string) : bool :=
  match strip_prefix bsky_prefix g with Some _ => true | None => false end.

(** What a message handed to the callback looks like: it is tagged with
    the channel, its content is not empty, and its group id is one that
    [send()] strips. *)
Definition well_shaped (m : InboundMessage) : Prop :=
  im_channel m = "bluesky" /\ im_content m <> "" /\ has_prefix (im_groupId m) = true.

(** * Properties *)

(** From [H : resume env i r w = Some _], the cases of the task at [i]
    that accept [r]. *)
Ltac task_at H :=
  unfold resume in H;
  destruct (pool _ !! _) as [[]|]; try discriminate H.

(** ** Strings and truthiness *)

Lemma truthy_Some_iff (s : string) : truthy (Some s) = true <-> s <> "".
Proof. destruct s; simpl; split; congruence. Qed.

Lemma nonempty_iff (s : string) : nonempty s = true <-> s <> "".
Proof. destruct s; simpl; split; congruence. Qed.

Lemma or_else_truthy (v : option string) (d s : string) :
  v = Some s -> s <> "" -> or_else v d = s.
Proof. intros -> Hs. destruct s; [congruence | reflexivity]. Qed.

Lemma strip_prefix_app (p s : string) : strip_prefix p (p +:+ s) = Some s.
Proof.
  induction p as [|a p IH]; simpl; [reflexivity|].
  rewrite Ascii.eqb_refl. exact IH.
Qed.

Lemma convoId_of_groupId_of (k : string) : convoId_of (groupId_of k) = k.
Proof. unfold convoId_of, groupId_of. now rewrite strip_prefix_app. Qed.

Lemma filter_none {A : Type} (keep : A -> bool) (l : list A) :
  Forall (fun x => keep x = false) l -> List.filter keep l = [].
Proof.
  induction 1 as [|x l Hx _ IH]; simpl; [reflexivity|]. now rewrite Hx.
Qed.

(** ** What the batch loop leaves alone *)

Lemma stopped_or_same_trans (c1 c2 c3 : BlueskyChannel) :
  stopped_or_same c1 c2 -> stopped_or_same c2 c3 -> stopped_or_same c1 c3.
Proof.
  intros [->| ->] [->| ->]; unfold stopped_or_same; auto.
Qed.

Lemma stopped_or_same_cursor (c c' : BlueskyChannel) :
  stopped_or_same c c' -> cursor c' = cursor c.
Proof. now intros [->| ->]. Qed.

Lemma stopped_or_same_didHandleMap (c c' : BlueskyChannel) :
  stopped_or_same c c' -> didHandleMap c' = didHandleMap c.
Proof. now intros [->| ->]. Qed.

Section BatchFacts.

Variable env : Env.

Lemma invoke_callback_spec (m : InboundMessage) (c c' : BlueskyChannel)
    (tr : list Effect) (k : Completion) :
  invoke_callback m c = (c', tr, k) ->
  stopped_or_same c c' /\ (tr = [] \/ tr = [Invoke m]).
Proof.
  unfold invoke_callback, stopped_or_same.
  destruct (messageCallback c) as [cb|]; intros [= <- <- <-].
  - destruct (cb_stop (cb m)); auto.
  - auto.
Qed.

Lemma process_log_spec (my : option string) (log : LogEntry)
    (c c' : BlueskyChannel) (tr : list Effect) (k : Completion) :
  process_log env my log c = (c', tr, k) ->
  stopped_or_same c c' /\ Forall (fun e => is_Invoke e = true) tr.
Proof.
  unfold process_log.
  destruct (negb (String.eqb (log_type log) logCreateMessage)).
  { intros [= <- <- <-]. split; [now left | constructor]. }
  destruct (message log) as [msg|].
  2: { intros [= <- <- <-]. split; [now left | constructor]. }
  destruct (negb (String.eqb (msg_type msg) messageView)).
  { intros [= <- <- <-]. split; [now left | constructor]. }
  destruct (msg_sender msg) as [s|].
  2: { intros [= <- <- <-]. split; [now left | constructor]. }
  destruct (strict_eq (did s) my).
  { intros [= <- <- <-]. split; [now left | constructor]. }
  intros H. apply invoke_callback_spec in H as [Hc [-> | ->]]; split; auto.
Qed.

Lemma process_logs_spec (my : option string) (ls : list LogEntry) :
  forall (c c' : BlueskyChannel) (tr : list Effect) (k : Completion),
  process_logs env my ls c = (c', tr, k) ->
  stopped_or_same c c' /\ Forall (fun e => is_Invoke e = true) tr.
Proof.
  induction ls as [|log ls IH]; simpl; intros c c' tr k.
  - intros [= <- <- <-]. split; [now left | constructor].
  - destruct (process_log env my log c) as [[c1 tr1] k1] eqn:E1.
    apply process_log_spec in E1 as [Hc1 Htr1].
    destruct k1 as [|e].
    + destruct (process_logs env my ls c1) as [[c2 tr2] k2] eqn:E2.
      apply IH in E2 as [Hc2 Htr2]. intros [= <- <- <-]. split.
      * eapply stopped_or_same_trans; eauto.
      * apply Forall_app; auto.
    + intros [= <- <- <-]. auto.
Qed.

(** An element the loop body [continue]s on can be dropped from the
    batch. *)
Lemma process_logs_filter (my : option string) (keep : LogEntry -> bool)
    (ls : list LogEntry) :
  (forall log c, keep log = false -> process_log env my log c = (c, [], Normal)) ->
  forall c, process_logs env my ls c = process_logs env my (List.filter keep ls) c.
Proof.
  intros Hskip. induction ls as [|log ls IH]; simpl; intros c; [reflexivity|].
  destruct (keep log) eqn:K; simpl.
  - destruct (process_log env my log c) as [[c1 tr1] [|e]]; [|reflexivity].
    now rewrite IH.
  - rewrite (Hskip log c K), IH.
    now destruct (process_logs env my (List.filter keep ls) c) as [[c2 tr2] k].
Qed.

End BatchFacts.

(** ** The identity cache holds non-empty ids and handles only *)

Lemma cache_wf_empty : cache_wf ∅.
Proof. intros d h. rewrite lookup_empty. discriminate. Qed.

(** An entry found after one member was handled was there before, or is
    that member's pair, both parts being non-empty. *)
Lemma upsert_member_lookup (mb : Member) (m : gmap string string) (d h : string) :
  upsert_member mb m !! d = Some h ->
  m !! d = Some h \/
  (member_did mb = Some d /\ member_handle mb = Some h /\ d <> "" /\ h <> "").
Proof.
  unfold upsert_member.
  destruct (member_did mb) as [d'|]; [|auto].
  destruct (member_handle mb) as [h'|]; [|auto].
  destruct (nonempty d' && nonempty h') eqn:E; [|auto].
  apply andb_true_iff in E as [Hd Hh].
  apply nonempty_iff in Hd. apply nonempty_iff in Hh.
  destruct (decide (d' = d)) as [->|Hne].
  - rewrite lookup_insert_eq. intros [= ->]. auto.
  - rewrite lookup_insert_ne by exact Hne. auto.
Qed.

Lemma upsert_member_wf (mb : Member) (m : gmap string string) :
  cache_wf m -> cache_wf (upsert_member mb m).
Proof.
  intros Hm d h H. apply upsert_member_lookup in H as [H|(_ & _ & Hd & Hh)]; auto.
Qed.

Lemma upsert_members_wf (ms : list Member) :
  forall m, cache_wf m -> cache_wf (upsert_members ms m).
Proof.
  induction ms as [|mb ms IH]; simpl; intros m Hm; [exact Hm|].
  apply IH, upsert_member_wf, Hm.
Qed.

Lemma upsert_convos_wf (cs : list Convo) :
  forall m, cache_wf m -> cache_wf (fst (upsert_convos cs m)).
Proof.
  induction cs as [|cv cs IH]; simpl; intros m Hm; [exact Hm|].
  destruct (members cv) as [ms|]; simpl; [|exact Hm].
  apply IH, upsert_members_wf, Hm.
Qed.

Lemma refresh_resume_wf (r : Outcome ListConvosData) (c : BlueskyChannel) :
  cache_wf (didHandleMap c) -> cache_wf (didHandleMap (refresh_resume r c)).
Proof.
  intros Hc. destruct r as [data|e]; simpl; [|exact Hc].
  destruct (convos data) as [cs|]; simpl; [|exact Hc].
  apply upsert_convos_wf, Hc.
Qed.

(** [refreshDidHandleMap()] writes nothing but the cache. *)
Lemma refresh_resume_fields (r : Outcome ListConvosData) (c : BlueskyChannel) :
  agent (refresh_resume r c) = agent c /\
  running (refresh_resume r c) = running c /\
  cursor (refresh_resume r c) = cursor c /\
  identifier (refresh_resume r c) = identifier c /\
  password (refresh_resume r c) = password c.
Proof.
  destruct r as [data|e]; simpl; [|auto].
  destruct (convos data); simpl; auto.
Qed.

Section WorldFacts.

Variable env : Env.

Lemma store_cursor_didHandleMap (data : GetLogData) (c : BlueskyChannel) :
  didHandleMap (fst (store_cursor data c)) = didHandleMap c.
Proof.
  unfold store_cursor. destruct (data_cursor data) as [[|x k]|]; reflexivity.
Qed.

Lemma try_after_getLog_didHandleMap (hp : list AtpAgent) (r : Outcome GetLogData)
    (c c' : BlueskyChannel) (tr : list Effect) (e : BodyEnd) :
  try_after_getLog env hp r c = (c', tr, e) -> didHandleMap c' = didHandleMap c.
Proof.
  unfold try_after_getLog. destruct r as [data|err]; [|now intros [= <- <- <-]].
  pose proof (store_cursor_didHandleMap data c) as Hs.
  destruct (store_cursor data c) as [c1 tr1]; simpl in Hs.
  destruct (agent c1); [|now intros [= <- <- <-]].
  destruct (logs data) as [ls|]; [|now intros [= <- <- <-]].
  destruct (process_logs env _ ls c1) as [[c2 tr2] k] eqn:E.
  apply process_logs_spec in E as [E _].
  apply stopped_or_same_didHandleMap in E.
  destruct k; intros [= <- <- <-]; congruence.
Qed.

Lemma after_try_chan (s : BlueskyChannel * list Effect * BodyEnd) :
  fst (fst (after_try env s)) = fst (fst s).
Proof.
  destruct s as [[c tr] [t| |err]]; simpl; [reflexivity..|].
  now destruct (running c).
Qed.

Lemma poll_resume_cache_wf (hp : list AtpAgent) (t : Task) (r : Response)
    (c c' : BlueskyChannel) (tr : list Effect) (next : option Task) :
  poll_resume env hp t r c = Some (c', tr, next) ->
  cache_wf (didHandleMap c) -> cache_wf (didHandleMap c').
Proof.
  intros H Hc. destruct t, r; simpl in H; try discriminate.
  - injection H as <- <- <-. apply refresh_resume_wf, Hc.
  - injection H as H.
    pose proof (after_try_chan (try_after_refresh c)) as Ha.
    rewrite H in Ha. simpl in Ha. subst c'.
    unfold try_after_refresh. now destruct (agent c).
  - injection H as H.
    pose proof (after_try_chan (try_after_getLog env hp r c)) as Ha.
    rewrite H in Ha. simpl in Ha. subst c'.
    destruct (try_after_getLog env hp r c) as [[c1 tr1] e1] eqn:E.
    apply try_after_getLog_didHandleMap in E. simpl. now rewrite E.
  - injection H as <- <- <-. exact Hc.
Qed.

(** What a step does to the channel object, by kind of action. *)
Lemma step_chan (a : Action) (w w' : World) (tr : list Effect)
    (s : option (Outcome unit)) :
  step env a w = Some (w', tr, s) ->
  match a with
  | Configure i p => chan w' = configure i p (chan w)
  | Start => chan w' = chan w \/ exists ag, chan w' = set_agent (Some ag) (chan w)
  | Stop => chan w' = stop (chan w)
  | OnMessage cb => chan w' = onMessage cb (chan w)
  | Send _ _ | SetTyping _ _ | IsConfigured => chan w' = chan w
  | Resume i r =>
      exists t, pool w !! i = Some t /\
      match t with
      | AwaitLogin _ =>
          (exists err, r = LoginDone (Rejected err) /\
                       chan w' = set_agent None (chan w)) \/
          (exists d, r = LoginDone (Resolved d) /\
                     chan w' = set_running true (chan w))
      | AwaitSendMessage => chan w' = chan w
      | _ => exists next, poll_resume env (heap w) t r (chan w) = Some (chan w', tr, next)
      end
  end.
Proof.
  intros H. destruct a; simpl in H.
  - now injection H as <- <- <-.
  - unfold start in H.
    destruct (negb (nonempty (identifier (chan w))) || negb (nonempty (password (chan w))));
      [|destruct (running (chan w))]; injection H as <- <- <-; simpl; eauto.
  - now injection H as <- <- <-.
  - unfold send in H. destruct (agent (chan w)); now injection H as <- <- <-.
  - now injection H as <- <- <-.
  - now injection H as <- <- <-.
  - now injection H as <- <- <-.
  - unfold resume in H. destruct (pool w !! i) as [t|]; [|discriminate].
    exists t. split; [reflexivity|].
    destruct t.
    + destruct r; try discriminate. injection H as H. unfold start_resume in H.
      destruct r as [d|err].
      * destruct (poll_head _) as [tr0 next]. injection H as <- <- <-. eauto.
      * injection H as <- <- <-. eauto.
    + destruct r; try discriminate. now injection H as <- <- <-.
    + destruct (poll_resume env (heap w) AwaitListConvos r (chan w))
        as [[[c1 tr1] next]|]; [|discriminate]. injection H as <- <- <-. eauto.
    + destruct (poll_resume env (heap w) AwaitRefresh r (chan w))
        as [[[c1 tr1] next]|]; [|discriminate]. injection H as <- <- <-. eauto.
    + destruct (poll_resume env (heap w) AwaitGetLog r (chan w))
        as [[[c1 tr1] next]|]; [|discriminate]. injection H as <- <- <-. eauto.
    + destruct (poll_resume env (heap w) AwaitSleep r (chan w))
        as [[[c1 tr1] next]|]; [|discriminate]. injection H as <- <- <-. eauto.
Qed.

Lemma step_cache_wf (a : Action) (w w' : World) (tr : list Effect)
    (s : option (Outcome unit)) :
  step env a w = Some (w', tr, s) ->
  cache_wf (didHandleMap (chan w)) -> cache_wf (didHandleMap (chan w')).
Proof.
  intros H Hc. apply step_chan in H.
  destruct a; try (rewrite H; exact Hc).
  - destruct H as [->|[ag ->]]; exact Hc.
  - destruct H as (t & _ & H).
    destruct t; try (destruct H as (next & H); eapply poll_resume_cache_wf; eauto).
    + destruct H as [(err & _ & ->)|(d & _ & ->)]; exact Hc.
    + rewrite H. exact Hc.
Qed.

Lemma reachable_cache_wf (w : World) :
  reachable env w -> cache_wf (didHandleMap (chan w)).
Proof.
  induction 1 as [|a w w' tr s _ IH Hstep].
  - apply cache_wf_empty.
  - eapply step_cache_wf; eauto.
Qed.

End WorldFacts.

(** ** Reachability along a run *)

Lemma run_reachable (env : Env) (acts : list Action) :
  forall (w w' : World) (tr : list Effect),
  reachable env w -> run env acts w = Some (w', tr) -> reachable env w'.
Proof.
  induction acts as [|a acts IH]; simpl; intros w w' tr Hw H.
  - now injection H as <- <-.
  - destruct (step env a w) as [[[w1 tr1] s1]|] eqn:E; [|discriminate].
    destruct (run env acts w1) as [[w2 tr2]|] eqn:E2; [|discriminate].
    injection H as <- <-.
    eapply IH; [|exact E2]. eapply reachable_step; eauto.
Qed.

Lemma warm_up_reaches :
  run env0 warm_up new_world =
    Some (logged_in_world AwaitListConvos,
          [Login 0 "me.bsky.social" "app-pw"; ListConvos 0; GetLog 0 None;
           SetCursor "c0"; Sleep 5000; ListConvos 0]).
Proof. vm_compute. reflexivity. Qed.

Lemma logged_in_world_reachable : reachable env0 (logged_in_world AwaitListConvos).
Proof.
  eapply run_reachable; [apply reachable_new | apply warm_up_reaches].
Qed.

(** ** The group id *)

(** C9.  The group id of an inbound message is ["bsky:"] followed by the
    conversation id of the event, whatever that id is; the pattern of
    [send()] takes exactly that prefix off again, also from an id that
    itself starts with ["bsky:"]; and [send()] to the group id of an
    inbound message addresses the conversation the message came from. *)
Theorem groupId_round_trip (env : Env) (entry : LogEntry) (msgView : MessageView)
    (handle text k : string) (w : World) :
  im_groupId (inbound env entry msgView handle) = "bsky:" +:+ convoId entry /\
  convoId_of (im_groupId (inbound env entry msgView handle)) = convoId entry /\
  convoId_of ("bsky:" +:+ k) = k /\
  convoId_of ("bsky:" +:+ ("bsky:" +:+ k)) = "bsky:" +:+ k /\
  match agent (chan w) with
  | Some a =>
      snd (fst (send (im_groupId (inbound env entry msgView handle)) text w)) =
        [SendMessage a (convoId entry) text]
  | None => True
  end.
Proof.
  split; [reflexivity|].
  split; [apply (convoId_of_groupId_of (convoId entry))|].
  split; [apply (convoId_of_groupId_of k)|].
  split; [apply (convoId_of_groupId_of ("bsky:" +:+ k))|].
  unfold send. destruct (agent (chan w)) as [a|]; [|exact I]. simpl.
  now rewrite (convoId_of_groupId_of (convoId entry)).
Qed.

(** ** Identity resolution *)

(** C6.  In every world the channel can be in, resolving a participant id
    yields the cached handle when the id is in the cache and the id itself
    when it is not.  [resolve] is a function of the cache and the id
    alone: it has no trace and no exceptional result. *)
Theorem resolve_cached_or_verbatim (env : Env) (w : World) (d : string) :
  reachable env w ->
  resolve (didHandleMap (chan w)) d =
    match didHandleMap (chan w) !! d with
    | Some handle => handle
    | None => d
    end.
Proof.
  intros Hw. apply reachable_cache_wf in Hw.
  unfold resolve. destruct (didHandleMap (chan w) !! d) as [h|] eqn:E.
  - destruct (Hw d h E) as [_ Hh]. now apply or_else_truthy.
  - reflexivity.
Qed.

Lemma resolve_cached_or_verbatim_witness :
  reachable env0 (logged_in_world AwaitListConvos) /\
  resolve (didHandleMap (chan (logged_in_world AwaitListConvos))) "did:plc:you" =
    "you.bsky.social" /\
  resolve (didHandleMap (chan (logged_in_world AwaitListConvos))) "did:plc:nohandle" =
    "did:plc:nohandle".
Proof.
  split; [exact logged_in_world_reachable|]. split.
  - rewrite (resolve_cached_or_verbatim env0 _ "did:plc:you" logged_in_world_reachable).
    vm_compute. reflexivity.
  - rewrite (resolve_cached_or_verbatim env0 _ "did:plc:nohandle" logged_in_world_reachable).
    vm_compute. reflexivity.
Defined.

(** C10.  The refresh step writes a pair to the cache only when id and
    handle are both non-empty; so in every world the channel can be in,
    every entry of the cache has a non-empty id and a non-empty handle,
    resolving a cached id yields that handle, and the fallback to the id
    is taken on a cache miss only. *)
Theorem cache_entries_nonempty (env : Env) (w : World) (d h : string) :
  reachable env w ->
  (forall (mb : Member) (m : gmap string string),
     upsert_member mb m !! d = Some h ->
     m !! d = Some h \/
     (member_did mb = Some d /\ member_handle mb = Some h /\ d <> "" /\ h <> "")) /\
  (didHandleMap (chan w) !! d = Some h ->
     d <> "" /\ h <> "" /\
     resolve (didHandleMap (chan w)) d = h /\
     resolve_falls_back (didHandleMap (chan w)) d = false) /\
  (resolve_falls_back (didHandleMap (chan w)) d = true ->
     didHandleMap (chan w) !! d = None).
Proof.
  intros Hw. apply reachable_cache_wf in Hw. split; [|split].
  - intros mb m. apply upsert_member_lookup.
  - intros E. destruct (Hw d h E) as [Hd Hh]. repeat split; auto.
    + unfold resolve. now apply or_else_truthy.
    + unfold resolve_falls_back. rewrite E.
      apply negb_false_iff, truthy_Some_iff, Hh.
  - unfold resolve_falls_back.
    destruct (didHandleMap (chan w) !! d) as [h'|] eqn:E; [|reflexivity].
    destruct (Hw d h' E) as [_ Hh]. apply truthy_Some_iff in Hh.
    rewrite Hh. discriminate.
Qed.

Lemma cache_entries_nonempty_witness :
  reachable env0 (logged_in_world AwaitListConvos) /\
  didHandleMap (chan (logged_in_world AwaitListConvos)) !! "did:plc:you" =
    Some "you.bsky.social" /\
  resolve (didHandleMap (chan (logged_in_world AwaitListConvos))) "did:plc:you" =
    "you.bsky.social" /\
  didHandleMap (chan (logged_in_world AwaitListConvos)) !! "did:plc:nohandle" = None.
Proof.
  pose proof (cache_entries_nonempty env0 _ "did:plc:you" "you.bsky.social"
                logged_in_world_reachable) as (_ & Hhit & _).
  pose proof (cache_entries_nonempty env0 _ "did:plc:nohandle" ""
                logged_in_world_reachable) as (_ & _ & Hmiss).
  split; [exact logged_in_world_reachable|].
  split; [vm_compute; reflexivity|].
  split; [apply Hhit; vm_compute; reflexivity|].
  apply Hmiss. vm_compute. reflexivity.
Defined.

(** ** The cursor *)

Section CursorFacts.

Variable env : Env.

Lemma store_cursor_spec (data : GetLogData) (c : BlueskyChannel) :
  store_cursor data c =
    if truthy (data_cursor data)
    then (set_cursor (data_cursor data) c, [SetCursor (or_else (data_cursor data) "")])
    else (c, []).
Proof.
  unfold store_cursor. destruct (data_cursor data) as [[|x k]|]; reflexivity.
Qed.

(** Where the [try] block gets to with the answer of [getLog], the cursor
    is the one [store_cursor] left. *)
Lemma try_after_getLog_cursor (hp : list AtpAgent) (data : GetLogData)
    (c c' : BlueskyChannel) (tr : list Effect) (e : BodyEnd) :
  try_after_getLog env hp (Resolved data) c = (c', tr, e) ->
  cursor c' = cursor (fst (store_cursor data c)).
Proof.
  unfold try_after_getLog.
  destruct (store_cursor data c) as [c1 tr1]; simpl.
  destruct (agent c1); [|now intros [= <- <- <-]].
  destruct (logs data) as [ls|]; [|now intros [= <- <- <-]].
  destruct (process_logs env _ ls c1) as [[c2 tr2] k] eqn:E.
  apply process_logs_spec in E as [E _]. apply stopped_or_same_cursor in E.
  destruct k; now intros [= <- <- <-].
Qed.

Lemma poll_resume_cursor (hp : list AtpAgent) (t : Task) (r : Response)
    (c c' : BlueskyChannel) (tr : list Effect) (next : option Task) :
  poll_resume env hp t r c = Some (c', tr, next) ->
  cursor c' =
    match t, r with
    | AwaitGetLog, GetLogDone (Resolved data) =>
        if truthy (data_cursor data) then data_cursor data else cursor c
    | _, _ => cursor c
    end.
Proof.
  intros H. destruct t, r; simpl in H; try discriminate.
  - injection H as <- <- <-. apply refresh_resume_fields.
  - injection H as H.
    pose proof (after_try_chan env (try_after_refresh c)) as Ha.
    rewrite H in Ha. simpl in Ha. subst c'.
    unfold try_after_refresh. now destruct (agent c).
  - injection H as H.
    pose proof (after_try_chan env (try_after_getLog env hp r c)) as Ha.
    rewrite H in Ha. simpl in Ha. subst c'.
    destruct (try_after_getLog env hp r c) as [[c1 tr1] e1] eqn:E. simpl.
    destruct r as [data|err].
    + apply try_after_getLog_cursor in E. rewrite E, store_cursor_spec.
      now destruct (truthy (data_cursor data)).
    + simpl in E. now injection E as <- <- <-.
  - now injection H as <- <- <-.
Qed.

Lemma step_cursor (a : Action) (w w' : World) (tr : list Effect)
    (s : option (Outcome unit)) :
  step env a w = Some (w', tr, s) ->
  cursor (chan w') =
    match fetched_cursor a w with
    | Some k => Some k
    | None => cursor (chan w)
    end.
Proof.
  intros H. apply step_chan in H.
  destruct a; simpl.
  - now rewrite H.
  - now destruct H as [->|[ag ->]].
  - now rewrite H.
  - now rewrite H.
  - now rewrite H.
  - now rewrite H.
  - now rewrite H.
  - destruct H as (t & Ht & H).
    destruct t.
    + destruct H as [(err & -> & ->)|(d & -> & ->)]; reflexivity.
    + rewrite H. destruct r as [| | | |[data|err]|]; try reflexivity.
      now rewrite Ht.
    + destruct H as (next & H). apply poll_resume_cursor in H. rewrite H.
      destruct r as [| | | |[data|err]|]; try reflexivity. now rewrite Ht.
    + destruct H as (next & H). apply poll_resume_cursor in H. rewrite H.
      destruct r as [| | | |[data|err]|]; try reflexivity. now rewrite Ht.
    + destruct H as (next & H). apply poll_resume_cursor in H. rewrite H.
      destruct r as [| | | |[data|err]|]; try reflexivity. rewrite Ht.
      destruct (data_cursor data) as [[|x k]|]; reflexivity.
    + destruct H as (next & H). apply poll_resume_cursor in H. rewrite H.
      destruct r as [| | | |[data|err]|]; try reflexivity. now rewrite Ht.
Qed.

End CursorFacts.

Lemma resume_getLog_task (env : Env) (i : nat) (o : Outcome GetLogData)
    (w : World) (run : Run) :
  resume env i (GetLogDone o) w = Some run -> pool w !! i = Some AwaitGetLog.
Proof.
  intros H. task_at H. reflexivity.
Qed.

(** C1.  Whatever happens to the channel (a call of a public method or
    the resumption of a waiting call), the stored cursor afterwards is:
    the cursor returned by [getLog], when the action is a successful
    return of [getLog] with a non-empty cursor, whatever the batch is;
    the cursor stored before, when [getLog] threw or returned an empty or
    absent cursor.  And if the stored cursor differs from what it was,
    the action was such a successful return with a non-empty cursor. *)
Theorem cursor_changes_only_on_fetch (env : Env) (a : Action) (w w' : World)
    (tr : list Effect) (s : option (Outcome unit)) :
  step env a w = Some (w', tr, s) ->
  (forall i data k,
     a = Resume i (GetLogDone (Resolved data)) ->
     data_cursor data = Some k -> k <> "" ->
     cursor (chan w') = Some k) /\
  (forall i err,
     a = Resume i (GetLogDone (Rejected err)) ->
     cursor (chan w') = cursor (chan w)) /\
  (forall i data,
     a = Resume i (GetLogDone (Resolved data)) ->
     truthy (data_cursor data) = false ->
     cursor (chan w') = cursor (chan w)) /\
  (cursor (chan w') <> cursor (chan w) ->
   exists i data k,
     a = Resume i (GetLogDone (Resolved data)) /\
     pool w !! i = Some AwaitGetLog /\
     data_cursor data = Some k /\ k <> "" /\
     cursor (chan w') = Some k).
Proof.
  intros Hstep. pose proof (step_cursor env _ _ _ _ _ Hstep) as Hc.
  split; [|split; [|split]].
  - intros i data k -> Hk Hne. simpl in Hstep, Hc.
    rewrite (resume_getLog_task _ _ _ _ _ Hstep), Hk in Hc.
    apply truthy_Some_iff in Hne. now rewrite Hne in Hc.
  - intros i err ->. simpl in Hc. exact Hc.
  - intros i data -> Hf. simpl in Hc. rewrite Hf in Hc.
    now destruct (pool w !! i) as [[]|].
  - intros Hne. unfold fetched_cursor in Hc.
    destruct a as [| | | | | | |i r]; try congruence.
    destruct r as [| | | |[data|err]|]; try congruence.
    destruct (pool w !! i) as [[]|] eqn:Ht; try congruence.
    destruct (data_cursor data) as [[|x k]|] eqn:Hk; simpl in Hc; try congruence.
    exists i, data, (String x k). repeat split; auto; discriminate.
Qed.

Lemma cursor_changes_only_on_fetch_witness :
  step env0
    (Resume 0 (GetLogDone (Resolved {| data_cursor := Some "c1"; logs := Some [] |})))
    (logged_in_world AwaitGetLog) =
    Some ({| chan := set_cursor (Some "c1") (chan (logged_in_world AwaitGetLog));
             heap := heap (logged_in_world AwaitGetLog);
             pool := [AwaitSleep] |},
          [SetCursor "c1"; Sleep 5000], None) /\
  cursor (set_cursor (Some "c1") (chan (logged_in_world AwaitGetLog))) = Some "c1".
Proof.
  assert (Hstep :
    step env0
      (Resume 0 (GetLogDone (Resolved {| data_cursor := Some "c1"; logs := Some [] |})))
      (logged_in_world AwaitGetLog) =
      Some ({| chan := set_cursor (Some "c1") (chan (logged_in_world AwaitGetLog));
               heap := heap (logged_in_world AwaitGetLog);
               pool := [AwaitSleep] |},
            [SetCursor "c1"; Sleep 5000], None)) by (vm_compute; reflexivity).
  split; [exact Hstep|].
  destruct (cursor_changes_only_on_fetch _ _ _ _ _ _ Hstep) as [Hadv _].
  apply (Hadv 0 {| data_cursor := Some "c1"; logs := Some [] |} "c1");
    [reflexivity | reflexivity | discriminate].
Defined.

Lemma Forall_Invoke_no_SetCursor (tr : list Effect) :
  Forall (fun e => is_Invoke e = true) tr ->
  Forall (fun e => is_SetCursor e = false) tr.
Proof.
  intros H. eapply Forall_impl; [exact H|].
  intros [] He; simpl in *; congruence.
Qed.

(** A resumed [poll()] is the [try] block followed by [after_try]. *)
Lemma resume_getLog_inv (env : Env) (i : nat) (o : Outcome GetLogData)
    (w w' : World) (tr : list Effect) (s : option (Outcome unit)) :
  resume env i (GetLogDone o) w = Some (w', tr, s) ->
  exists next,
    after_try env (try_after_getLog env (heap w) o (chan w)) = (chan w', tr, next) /\
    heap w' = heap w /\
    pool w' = splice i (option_list next) (pool w) /\
    s = match next with None => Some (Resolved tt) | Some _ => None end.
Proof.
  intros H. pose proof (resume_getLog_task _ _ _ _ _ H) as Ht.
  unfold resume in H. rewrite Ht in H. simpl in H.
  destruct (after_try env _) as [[c1 tr1] next].
  injection H as <- <- <-. exists next. auto.
Qed.

Lemma resume_refresh_inv (env : Env) (i : nat) (w w' : World)
    (tr : list Effect) (s : option (Outcome unit)) :
  pool w !! i = Some AwaitRefresh ->
  resume env i RefreshDone w = Some (w', tr, s) ->
  exists next,
    after_try env (try_after_refresh (chan w)) = (chan w', tr, next) /\
    heap w' = heap w /\
    pool w' = splice i (option_list next) (pool w) /\
    s = match next with None => Some (Resolved tt) | Some _ => None end.
Proof.
  intros Ht H. unfold resume in H. rewrite Ht in H. simpl in H.
  destruct (after_try env _) as [[c1 tr1] next].
  injection H as <- <- <-. exists next. auto.
Qed.

(** What [after_try] adds to the trace is no store and no invocation. *)
Lemma after_try_trace (env : Env) (c c' : BlueskyChannel) (tr tr' : list Effect)
    (e : BodyEnd) (next : option Task) :
  after_try env (c, tr, e) = (c', tr', next) ->
  c' = c /\
  exists tail,
    tr' = tr ++ tail /\
    Forall (fun x => is_Invoke x = false) tail /\
    Forall (fun x => is_SetCursor x = false) tail.
Proof.
  simpl. destruct e as [t| |err].
  - intros [= <- <- <-]. split; [reflexivity|]. exists []. rewrite app_nil_r. auto.
  - intros [= <- <- <-]. split; [reflexivity|]. eexists. split; [reflexivity|].
    split; repeat constructor.
  - destruct (negb (running c)); intros [= <- <- <-]; (split; [reflexivity|]).
    + exists []. rewrite app_nil_r. auto.
    + eexists. split; [reflexivity|]. split; repeat constructor.
Qed.

(** The stores in the trace of a step are the one store of a successful
    [getLog] with a non-empty cursor, and none otherwise. *)
Lemma step_stores (env : Env) (a : Action) (w w' : World) (tr : list Effect)
    (s : option (Outcome unit)) :
  step env a w = Some (w', tr, s) ->
  List.filter is_SetCursor tr =
    match fetched_cursor a w with
    | Some k => [SetCursor k]
    | None => []
    end.
Proof.
  intros H. destruct a; simpl in H; try (injection H as _ <- _; reflexivity).
  - unfold start in H.
    destruct (negb (nonempty (identifier (chan w))) || negb (nonempty (password (chan w))));
      [|destruct (running (chan w))]; injection H as _ <- _; reflexivity.
  - unfold send in H. destruct (agent (chan w)); injection H as _ <- _; reflexivity.
  - destruct r as [o|o|o| |o|].
    + task_at H.
      injection H as H. unfold start_resume, poll_head, refresh_enter in H.
      destruct o as [d|err]; [|injection H as _ <- _; reflexivity].
      simpl in H. destruct (agent (chan w)); injection H as _ <- _; reflexivity.
    + task_at H. injection H as _ <- _. reflexivity.
    + task_at H. injection H as _ <- _. reflexivity.
    + assert (Ht : pool w !! i = Some AwaitRefresh).
      { task_at H. reflexivity. }
      apply (resume_refresh_inv env i w w' tr s Ht) in H as (next & H & _).
      unfold try_after_refresh in H.
      destruct (agent (chan w)); simpl in H;
        [|destruct (negb (running (chan w)))]; injection H as _ <- _; reflexivity.
    + pose proof (resume_getLog_task _ _ _ _ _ H) as Ht.
      apply resume_getLog_inv in H as (next & H & _).
      simpl. rewrite Ht.
      destruct (try_after_getLog env (heap w) o (chan w)) as [[c1 tr1] e1] eqn:E.
      apply after_try_trace in H as (_ & tail & -> & _ & Hs).
      rewrite List.filter_app, (filter_none _ tail Hs), app_nil_r.
      destruct o as [data|err]; [|simpl in E; now injection E as _ <- _].
      unfold try_after_getLog in E. rewrite store_cursor_spec in E.
      assert (Hb : forall c0 my ls c2 tr2 k,
                process_logs env my ls c0 = (c2, tr2, k) ->
                List.filter is_SetCursor tr2 = []).
      { intros c0 my ls c2 tr2 k Hp. apply process_logs_spec in Hp as [_ Hp].
        apply filter_none, Forall_Invoke_no_SetCursor, Hp. }
      destruct (truthy (data_cursor data)) eqn:Hk.
      * destruct (data_cursor data) as [[|x k]|]; try discriminate. simpl in E.
        destruct (agent (chan w)); [|now injection E as _ <- _].
        destruct (logs data) as [ls|]; [|now injection E as _ <- _].
        destruct (process_logs env _ ls _) as [[c2 tr2] k2] eqn:Ep.
        apply Hb in Ep. destruct k2; injection E as _ <- _; simpl; now rewrite Ep.
      * destruct (agent (chan w)); [|now injection E as _ <- _].
        destruct (logs data) as [ls|]; [|now injection E as _ <- _].
        destruct (process_logs env _ ls _) as [[c2 tr2] k2] eqn:Ep.
        apply Hb in Ep. destruct k2; injection E as _ <- _; simpl; now rewrite Ep.
    + task_at H.
      simpl in H. injection H as _ <- _. unfold poll_head, refresh_enter.
      destruct (running (chan w) && bool_decide (is_Some (agent (chan w))));
        [destruct (agent (chan w))|]; reflexivity.
Qed.

Lemma last_stored_filter (tr : list Effect) :
  forall k0, last_stored k0 tr = last_stored k0 (List.filter is_SetCursor tr).
Proof.
  unfold last_stored. induction tr as [|e tr IH]; intros k0; [reflexivity|].
  destruct e; simpl; apply IH.
Qed.

(** The recorded stores account for the cursor: after any step the stored
    cursor is the last one the trace of the step records, or the one
    before the step if it records none. *)
Lemma step_cursor_last_stored (env : Env) (a : Action) (w w' : World)
    (tr : list Effect) (s : option (Outcome unit)) :
  step env a w = Some (w', tr, s) ->
  cursor (chan w') = last_stored (cursor (chan w)) tr.
Proof.
  intros H. rewrite last_stored_filter, (step_stores _ _ _ _ _ _ H).
  rewrite (step_cursor _ _ _ _ _ _ H).
  now destruct (fetched_cursor a w).
Qed.

(** C8.  When [getLog] returns a non-empty cursor [k], the first thing
    the iteration does is to store [k]: the trace of the iteration starts
    with that store and has no other; the batch is processed from the
    channel in which the cursor already is [k], so every callback
    invocation comes after the store; and the cursor is [k] before each
    event of the batch and at the end of the iteration. *)
Theorem cursor_stored_before_batch (env : Env) (w w' : World) (i : nat)
    (data : GetLogData) (k : string) (tr : list Effect)
    (s : option (Outcome unit)) :
  data_cursor data = Some k -> k <> "" ->
  resume env i (GetLogDone (Resolved data)) w = Some (w', tr, s) ->
  exists tr',
    tr = SetCursor k :: tr' /\
    Forall (fun e => is_SetCursor e = false) tr' /\
    cursor (chan w') = Some k /\
    (forall a ls,
       agent (chan w) = Some a -> logs data = Some ls ->
       let start := set_cursor (Some k) (chan w) in
       let my := heap w !! a ≫= session_did in
       (exists tr2 e tail,
          process_logs env my ls start = (chan w', tr2, e) /\
          tr' = tr2 ++ tail /\
          Forall (fun e => is_Invoke e = false) tail) /\
       (forall ls1 ls2, ls = ls1 ++ ls2 ->
          cursor (fst (fst (process_logs env my ls1 start))) = Some k)).
Proof.
  intros Hk Hne H. apply resume_getLog_inv in H as (next & H & _).
  destruct k as [|x k]; [congruence|]. clear Hne.
  unfold try_after_getLog, store_cursor in H. rewrite Hk in H.
  set (start := set_cursor (Some (String x k)) (chan w)) in *.
  change (agent start) with (agent (chan w)) in H.
  destruct (agent (chan w)) as [a|].
  2: { apply after_try_trace in H as (-> & tail & -> & _ & Hs).
       exists tail. split; [reflexivity|]. split; [exact Hs|].
       split; [reflexivity|]. intros ? ? [=]. }
  destruct (logs data) as [ls|].
  2: { apply after_try_trace in H as (-> & tail & -> & _ & Hs).
       exists tail. split; [reflexivity|]. split; [exact Hs|].
       split; [reflexivity|]. intros ? ? _ [=]. }
  assert (Hpre : forall ls1,
            cursor (fst (fst (process_logs env (heap w !! a ≫= session_did) ls1 start)))
            = Some (String x k)).
  { intros ls1.
    destruct (process_logs env (heap w !! a ≫= session_did) ls1 start)
      as [[c1 tr1] e1] eqn:E1.
    apply process_logs_spec in E1 as [E1 _].
    apply stopped_or_same_cursor in E1. exact E1. }
  pose proof (Hpre ls) as Hcur.
  destruct (process_logs env (heap w !! a ≫= session_did) ls start)
    as [[c2 tr2] e2] eqn:E.
  pose proof (process_logs_spec _ _ _ _ _ _ _ E) as [_ Htr2].
  apply Forall_Invoke_no_SetCursor in Htr2. simpl in Hcur.
  assert (Hend : exists e, after_try env (c2, [SetCursor (String x k)] ++ tr2, e)
                           = (chan w', tr, next)).
  { destruct e2; eauto. }
  destruct Hend as (e & Hend).
  apply after_try_trace in Hend as (-> & tail & -> & Hi & Hs).
  exists (tr2 ++ tail). split; [now rewrite <- app_assoc|].
  split; [apply Forall_app; auto|]. split; [exact Hcur|].
  intros a' ls' [= <-] [= <-]. split.
  - exists tr2, e2, tail. rewrite E. auto.
  - intros ls1 ls2 _. apply Hpre.
Qed.

Lemma cursor_stored_before_batch_witness :
  resume env0 0 (GetLogDone (Resolved hello_batch)) (logged_in_world AwaitGetLog) =
    Some ({| chan := set_cursor (Some "c1") (chan (logged_in_world AwaitGetLog));
             heap := heap (logged_in_world AwaitGetLog);
             pool := [AwaitSleep] |},
          [SetCursor "c1"; Invoke hello; Sleep 5000], None) /\
  exists tr',
    [SetCursor "c1"; Invoke hello; Sleep 5000] = SetCursor "c1" :: tr' /\
    Forall (fun e => is_SetCursor e = false) tr'.
Proof.
  assert (Hres :
    resume env0 0 (GetLogDone (Resolved hello_batch)) (logged_in_world AwaitGetLog) =
      Some ({| chan := set_cursor (Some "c1") (chan (logged_in_world AwaitGetLog));
               heap := heap (logged_in_world AwaitGetLog);
               pool := [AwaitSleep] |},
            [SetCursor "c1"; Invoke hello; Sleep 5000], None))
    by (vm_compute; reflexivity).
  split; [exact Hres|].
  destruct (cursor_stored_before_batch env0 _ _ 0 hello_batch "c1" _ _
              eq_refl ltac:(discriminate) Hres) as (tr' & Htr & Hns & _).
  exists tr'. split; [exact Htr | exact Hns].
Defined.

(** ** Which events reach the callback *)

Section Filtering.

Variable env : Env.

(** [resume] reads the answer of [getLog] through [try_after_getLog]
    only. *)
Lemma resume_getLog_congr (i : nat) (o o' : Outcome GetLogData) (w : World) :
  try_after_getLog env (heap w) o (chan w) =
    try_after_getLog env (heap w) o' (chan w) ->
  resume env i (GetLogDone o) w = resume env i (GetLogDone o') w.
Proof.
  intros E. unfold resume. destruct (pool w !! i) as [[]|]; simpl; try reflexivity.
  now rewrite E.
Qed.

Lemma store_cursor_restrict (keep : LogEntry -> bool) (data : GetLogData)
    (c : BlueskyChannel) :
  store_cursor (restrict_logs keep data) c = store_cursor data c.
Proof. reflexivity. Qed.

(** Events on which the loop body [continue]s can be taken out of the
    batch without any difference to the iteration. *)
Lemma try_after_getLog_restrict (hp : list AtpAgent) (keep : LogEntry -> bool)
    (data : GetLogData) (c : BlueskyChannel) :
  (forall a log c',
     agent c = Some a -> keep log = false ->
     process_log env (hp !! a ≫= session_did) log c' = (c', [], Normal)) ->
  try_after_getLog env hp (Resolved data) c =
    try_after_getLog env hp (Resolved (restrict_logs keep data)) c.
Proof.
  intros Hskip. unfold try_after_getLog. rewrite store_cursor_restrict.
  assert (Ha : agent (fst (store_cursor data c)) = agent c).
  { unfold store_cursor. now destruct (data_cursor data) as [[|x k]|]. }
  destruct (store_cursor data c) as [c1 tr1]; simpl in Ha.
  destruct (agent c1) as [a|] eqn:Ea; [|reflexivity].
  simpl. destruct (logs data) as [ls|]; simpl; [|reflexivity].
  rewrite (process_logs_filter env _ keep ls); [reflexivity|].
  intros log c' K. apply Hskip; congruence.
Qed.

Lemma process_log_own (me : string) (log : LogEntry) (c : BlueskyChannel) :
  authored_by me log = true ->
  process_log env (Some me) log c = (c, [], Normal).
Proof.
  unfold authored_by, process_log.
  destruct (negb (String.eqb (log_type log) logCreateMessage)); [reflexivity|].
  destruct (message log) as [msg|]; [|reflexivity].
  destruct (negb (String.eqb (msg_type msg) messageView)); [reflexivity|].
  destruct (msg_sender msg) as [s|]; [|discriminate].
  simpl. now intros ->.
Qed.

Lemma process_log_not_actionable (my : option string) (log : LogEntry)
    (c : BlueskyChannel) :
  actionable log = false ->
  process_log env my log c = (c, [], Normal).
Proof.
  unfold actionable, process_log.
  destruct (String.eqb (log_type log) logCreateMessage); simpl; [|reflexivity].
  destruct (message log) as [msg|]; [|reflexivity].
  now intros ->.
Qed.

(** An iteration whose batch is empty stores the cursor and sleeps. *)
Lemma resume_empty_batch (i : nat) (data : GetLogData) (w w' : World)
    (a : AgentRef) (tr : list Effect) (s : option (Outcome unit)) :
  agent (chan w) = Some a -> logs data = Some [] ->
  resume env i (GetLogDone (Resolved data)) w = Some (w', tr, s) ->
  chan w' = fst (store_cursor data (chan w)) /\
  tr = snd (store_cursor data (chan w)) ++ [Sleep (BLUESKY_POLL_INTERVAL env)] /\
  pool w' = splice i [AwaitSleep] (pool w) /\
  s = None.
Proof.
  intros Ha Hl H. apply resume_getLog_inv in H as (next & H & _ & Hp & Hs).
  unfold try_after_getLog in H.
  assert (Ha1 : agent (fst (store_cursor data (chan w))) = Some a).
  { unfold store_cursor. now destruct (data_cursor data) as [[|x k]|]. }
  destruct (store_cursor data (chan w)) as [c1 tr1]; simpl in *.
  rewrite Ha1, Hl in H. simpl in H. rewrite app_nil_r in H.
  injection H as <- <- <-. auto.
Qed.

End Filtering.

Lemma store_cursor_trace (data : GetLogData) (c : BlueskyChannel) :
  Forall (fun e => is_Invoke e = false /\ is_ConsoleError e = false)
         (snd (store_cursor data c)).
Proof.
  unfold store_cursor. destruct (data_cursor data) as [[|x k]|]; simpl;
    repeat constructor.
Qed.

Lemma actionable_false_iff (log : LogEntry) :
  actionable log = false <->
  log_type log <> logCreateMessage \/
  message log = None \/
  exists msg, message log = Some msg /\ msg_type msg <> messageView.
Proof.
  unfold actionable.
  destruct (String.eqb_spec (log_type log) logCreateMessage) as [Ht|Ht]; simpl.
  - destruct (message log) as [msg|].
    + destruct (String.eqb_spec (msg_type msg) messageView) as [Hm|Hm]; split.
      * discriminate.
      * intros [H|[H|(msg' & [= <-] & H)]]; congruence.
      * intros _. right. right. eauto.
      * reflexivity.
    + split; auto.
  - split; auto.
Qed.

(** X18.  When the agent the channel points to holds a session, with own
    id [me], at the time a batch arrives: an event whose message was sent
    by [me] leaves the loop body without invoking the callback; the
    iteration is the same as if such events were not in the batch; and for
    a batch in which every "message created" event with a message view was
    sent by [me], a single such event in particular, the trace of the
    iteration has no callback invocation. *)
Theorem own_messages_not_delivered (env : Env) (w : World) (i : nat)
    (data : GetLogData) (a : AgentRef) (ag : AtpAgent) (me : string) :
  agent (chan w) = Some a -> heap w !! a = Some ag -> session_did ag = Some me ->
  (forall log c,
     authored_by me log = true ->
     process_log env (Some me) log c = (c, [], Normal)) /\
  resume env i (GetLogDone (Resolved data)) w =
    resume env i
      (GetLogDone (Resolved (restrict_logs (fun log => negb (authored_by me log)) data)))
      w /\
  (forall ls w' tr s,
     logs data = Some ls ->
     Forall (fun log => authored_by me log = true \/ actionable log = false) ls ->
     resume env i (GetLogDone (Resolved data)) w = Some (w', tr, s) ->
     Forall (fun e => is_Invoke e = false) tr).
Proof.
  intros Ha Hag Hme.
  assert (Hmy : forall a', agent (chan w) = Some a' ->
                  heap w !! a' ≫= session_did = Some me).
  { intros a' Ha'. rewrite Ha in Ha'. injection Ha' as <-. rewrite Hag. exact Hme. }
  split; [apply process_log_own|]. split.
  - apply resume_getLog_congr, try_after_getLog_restrict.
    intros a' log c' Ha' K. rewrite (Hmy a' Ha'). apply process_log_own.
    now apply negb_false_iff in K.
  - intros ls w' tr s Hls Hall H.
    set (keep := fun log => negb (authored_by me log) && actionable log).
    assert (Heq : resume env i (GetLogDone (Resolved data)) w =
                  resume env i (GetLogDone (Resolved (restrict_logs keep data))) w).
    { apply resume_getLog_congr, try_after_getLog_restrict.
      intros a' log c' Ha' K. rewrite (Hmy a' Ha'). unfold keep in K.
      destruct (authored_by me log) eqn:Hown; [now apply process_log_own|].
      now apply process_log_not_actionable. }
    rewrite Heq in H.
    eapply resume_empty_batch in H as (_ & -> & _); [|exact Ha|].
    + apply Forall_app. split; [|repeat constructor].
      eapply Forall_impl; [apply store_cursor_trace|]. now intros e [He _].
    + simpl. rewrite Hls. simpl. f_equal. apply filter_none.
      eapply Forall_impl; [exact Hall|]. intros log [Hl|Hl]; unfold keep; rewrite Hl.
      * reflexivity.
      * apply andb_false_r.
Qed.

Lemma own_messages_not_delivered_witness :
  resume env0 0
    (GetLogDone (Resolved {| data_cursor := Some "c1";
                             logs := Some [read_receipt; created "did:plc:me" "echo"] |}))
    (logged_in_world AwaitGetLog) =
    Some ({| chan := set_cursor (Some "c1") (chan (logged_in_world AwaitGetLog));
             heap := heap (logged_in_world AwaitGetLog);
             pool := [AwaitSleep] |},
          [SetCursor "c1"; Sleep 5000], None) /\
  Forall (fun e => is_Invoke e = false) [SetCursor "c1"; Sleep 5000].
Proof.
  assert (Hres :
    resume env0 0
      (GetLogDone (Resolved {| data_cursor := Some "c1";
                               logs := Some [read_receipt; created "did:plc:me" "echo"] |}))
      (logged_in_world AwaitGetLog) =
      Some ({| chan := set_cursor (Some "c1") (chan (logged_in_world AwaitGetLog));
               heap := heap (logged_in_world AwaitGetLog);
               pool := [AwaitSleep] |},
            [SetCursor "c1"; Sleep 5000], None))
    by (vm_compute; reflexivity).
  split; [exact Hres|].
  destruct (own_messages_not_delivered env0 (logged_in_world AwaitGetLog) 0
              {| data_cursor := Some "c1";
                 logs := Some [read_receipt; created "did:plc:me" "echo"] |}
              0 {| service := "https://bsky.social"; session_did := Some "did:plc:me" |}
              "did:plc:me" eq_refl eq_refl eq_refl) as (_ & _ & Hnone).
  eapply Hnone; [reflexivity | | exact Hres].
  constructor; [right; reflexivity|].
  constructor; [left; reflexivity|].
  constructor.
Defined.

Lemma logged_in_fetching_reachable : reachable env0 (logged_in_world AwaitGetLog).
Proof.
  eapply (run_reachable env0
            [Resume 0 (ListConvosDone (Resolved convos0)); Resume 0 RefreshDone]);
    [exact logged_in_world_reachable | vm_compute; reflexivity].
Qed.

(** C3.  The loop takes the channel's own id from the agent the channel
    points to when the batch arrives (line 121), not from the session the
    batch was fetched with.  With [getLog] pending in a channel logged in
    as [did:plc:me], [stop()] and [start()] put a new agent in place that
    has no session while its [login] is pending; [myDid] is then
    [undefined], the comparison of line 129 fails for every sender, and
    the message the channel sent itself is handed to the callback. *)
Lemma own_message_delivered_after_restart :
  reachable env0 (logged_in_world AwaitGetLog) /\
  heap (logged_in_world AwaitGetLog) !! 0 ≫= session_did = Some "did:plc:me" /\
  authored_by "did:plc:me" (created "did:plc:me" "echo") = true /\
  run env0
    [ Stop; Start;
      Resume 0 (GetLogDone (Resolved {| data_cursor := Some "c1";
                                        logs := Some [created "did:plc:me" "echo"] |})) ]
    (logged_in_world AwaitGetLog) =
    Some ({| chan := set_cursor (Some "c1")
                       (set_agent (Some 1) (stop (chan (logged_in_world AwaitGetLog))));
             heap := heap (logged_in_world AwaitGetLog) ++
                     [ {| service := "https://bsky.social"; session_did := None |} ];
             pool := [AwaitSleep; AwaitLogin 1] |},
          [Login 1 "me.bsky.social" "app-pw"; SetCursor "c1"; Invoke echo; Sleep 5000]).
Proof.
  split; [exact logged_in_fetching_reachable|].
  split; [reflexivity|]. split; [reflexivity|].
  vm_compute. reflexivity.
Qed.

(** C5.  An event that is not a "message created" event, or whose payload
    is absent or not a "message view", leaves the loop body without a
    callback invocation and without throwing; the iteration is the same as
    if such events were not in the batch; and an iteration over a batch of
    such events only invokes no callback, logs no error and ends in the
    [sleep] of a normal iteration. *)
Theorem non_actionable_events_skipped (env : Env) (w : World) (i : nat)
    (data : GetLogData) :
  (forall my log c,
     (log_type log <> logCreateMessage \/
      message log = None \/
      exists msg, message log = Some msg /\ msg_type msg <> messageView) ->
     process_log env my log c = (c, [], Normal)) /\
  resume env i (GetLogDone (Resolved data)) w =
    resume env i (GetLogDone (Resolved (restrict_logs actionable data))) w /\
  (forall a ls w' tr s,
     agent (chan w) = Some a ->
     logs data = Some ls ->
     Forall (fun log => actionable log = false) ls ->
     resume env i (GetLogDone (Resolved data)) w = Some (w', tr, s) ->
     Forall (fun e => is_Invoke e = false /\ is_ConsoleError e = false) tr /\
     pool w' = splice i [AwaitSleep] (pool w)).
Proof.
  assert (Heq : resume env i (GetLogDone (Resolved data)) w =
    resume env i (GetLogDone (Resolved (restrict_logs actionable data))) w).
  { apply resume_getLog_congr, try_after_getLog_restrict.
    intros a' log c' _ K. now apply process_log_not_actionable. }
  split; [|split; [exact Heq|]].
  - intros my log c H. apply process_log_not_actionable, actionable_false_iff, H.
  - intros a ls w' tr s Ha Hls Hall H. rewrite Heq in H.
    eapply resume_empty_batch in H as (_ & -> & Hp & _); [|exact Ha|].
    + split; [|exact Hp]. apply Forall_app. split; [|repeat constructor].
      apply store_cursor_trace.
    + simpl. rewrite Hls. simpl. f_equal. now apply filter_none.
Qed.

Lemma non_actionable_events_skipped_witness :
  resume env0 0
    (GetLogDone (Resolved {| data_cursor := Some "c1";
                             logs := Some [read_receipt; deleted_created] |}))
    (logged_in_world AwaitGetLog) =
    Some ({| chan := set_cursor (Some "c1") (chan (logged_in_world AwaitGetLog));
             heap := heap (logged_in_world AwaitGetLog);
             pool := [AwaitSleep] |},
          [SetCursor "c1"; Sleep 5000], None) /\
  process_log env0 (Some "did:plc:me") read_receipt (chan (logged_in_world AwaitGetLog)) =
    (chan (logged_in_world AwaitGetLog), [], Normal) /\
  process_log env0 (Some "did:plc:me") deleted_created (chan (logged_in_world AwaitGetLog)) =
    (chan (logged_in_world AwaitGetLog), [], Normal).
Proof.
  destruct (non_actionable_events_skipped env0 (logged_in_world AwaitGetLog) 0
              {| data_cursor := Some "c1"; logs := Some [read_receipt; deleted_created] |})
    as (Hone & Heq & _).
  split; [rewrite Heq; vm_compute; reflexivity|]. split.
  - apply Hone. left. discriminate.
  - apply Hone. right. right. eexists. split; [reflexivity | discriminate].
Defined.

(** ** Starting and sending *)

Lemma splice_last (p : list Task) (t : Task) (ts : list Task) :
  splice (length p) ts (p ++ [t]) = p ++ ts.
Proof.
  unfold splice. rewrite take_app_length.
  rewrite drop_ge by (rewrite length_app; simpl; lia).
  now rewrite app_nil_r.
Qed.

Lemma lookup_last (p : list Task) (t : Task) : (p ++ [t]) !! length p = Some t.
Proof. apply list_lookup_middle. reflexivity. Qed.

(** C7.  [start()] returns at once, changing nothing and calling nothing,
    when a credential is empty or the channel is already running.
    Otherwise it calls [login] once; when that call fails, the failure is
    logged, the agent is cleared, the channel is not running, identifier
    and password are what they were, the promise of [start()] resolves, and
    a further [start()] calls [login] again with the same credentials.
    Whenever a pending [login] fails, the continuation of [start()] does
    exactly that: log, clear the agent, resolve. *)
Theorem start_login_failure (env : Env) (w : World) (err : JsError) :
  (identifier (chan w) = "" \/ password (chan w) = "" \/ running (chan w) = true ->
   start env w = (w, [], Some (Resolved tt))) /\
  (identifier (chan w) <> "" -> password (chan w) <> "" -> running (chan w) = false ->
   exists w1 w2,
     start env w =
       (w1, [Login (length (heap w)) (identifier (chan w)) (password (chan w))], None) /\
     resume env (length (pool w)) (LoginDone (Rejected err)) w1 =
       Some (w2, [ConsoleError "Bluesky login failed:" err], Some (Resolved tt)) /\
     agent (chan w2) = None /\
     running (chan w2) = false /\
     identifier (chan w2) = identifier (chan w) /\
     password (chan w2) = password (chan w) /\
     isConfigured (chan w2) = true /\
     pool w2 = pool w /\
     snd (fst (start env w2)) =
       [Login (S (length (heap w))) (identifier (chan w)) (password (chan w))]) /\
  (forall i a,
     pool w !! i = Some (AwaitLogin a) ->
     resume env i (LoginDone (Rejected err)) w =
       Some ({| chan := set_agent None (chan w); heap := heap w;
                pool := splice i [] (pool w) |},
             [ConsoleError "Bluesky login failed:" err],
             Some (Resolved tt))).
Proof.
  split; [|split].
  - unfold start. intros [H|[H|H]]; rewrite H; simpl; [reflexivity| |].
    + now rewrite orb_true_r.
    + now destruct (negb (nonempty (identifier (chan w))) || negb (nonempty (password (chan w)))).
  - intros Hi Hp Hr. apply nonempty_iff in Hi. apply nonempty_iff in Hp.
    unfold start. rewrite Hi, Hp, Hr. simpl.
    eexists. eexists. split; [reflexivity|].
    unfold resume. simpl. rewrite lookup_last. simpl.
    split; [reflexivity|]. simpl.
    rewrite (splice_last (pool w) _ []), app_nil_r.
    unfold isConfigured, start. simpl. rewrite Hi, Hp, Hr. simpl.
    rewrite length_app. simpl. rewrite Nat.add_1_r. auto 10.
  - intros i a Ht. unfold resume. now rewrite Ht.
Qed.

Lemma start_login_failure_witness :
  identifier (chan (on_chan (configure "me.bsky.social" "wrong-pw") new_world).1.1) <> "" /\
  password (chan (on_chan (configure "me.bsky.social" "wrong-pw") new_world).1.1) <> "" /\
  running (chan (on_chan (configure "me.bsky.social" "wrong-pw") new_world).1.1) = false /\
  exists w1 w2,
    start env0 (on_chan (configure "me.bsky.social" "wrong-pw") new_world).1.1 =
      (w1, [Login 0 "me.bsky.social" "wrong-pw"], None) /\
    resume env0 0 (LoginDone (Rejected "AuthenticationRequired")) w1 =
      Some (w2, [ConsoleError "Bluesky login failed:" "AuthenticationRequired"],
            Some (Resolved tt)) /\
    agent (chan w2) = None /\ running (chan w2) = false /\
    identifier (chan w2) = "me.bsky.social" /\ password (chan w2) = "wrong-pw".
Proof.
  split; [discriminate|]. split; [discriminate|]. split; [reflexivity|].
  destruct (start_login_failure env0
              (on_chan (configure "me.bsky.social" "wrong-pw") new_world).1.1
              "AuthenticationRequired") as (_ & Hfail & _).
  destruct Hfail as (w1 & w2 & H1 & H2 & Ha & Hr & Hi & Hp & _);
    [discriminate | discriminate | reflexivity |].
  exists w1, w2. auto 10.
Defined.

(** C4, as stated, fails where the [running] flag and the agent differ.
    While [login] is pending the channel is not running, and [send()]
    calls the backend; after a [stop()] during a [login] that then
    succeeds the channel is running, and [send()] calls nothing.  Both
    worlds are reachable. *)
Lemma send_not_by_running_flag :
  reachable env0 login_pending_world /\
  running (chan login_pending_world) = false /\
  send "bsky:abc123" "hi" login_pending_world =
    ({| chan := chan login_pending_world; heap := heap login_pending_world;
        pool := [AwaitLogin 0; AwaitSendMessage] |},
     [SendMessage 0 "abc123" "hi"], None) /\
  reachable env0 flagged_world /\
  running (chan flagged_world) = true /\
  send "bsky:abc123" "hi" flagged_world = (flagged_world, [], Some (Resolved tt)).
Proof.
  split.
  { eapply (run_reachable env0 [Configure "me.bsky.social" "app-pw"; Start]);
      [apply reachable_new | vm_compute; reflexivity]. }
  split; [reflexivity|]. split; [reflexivity|]. split.
  { eapply (run_reachable env0
              [Configure "me.bsky.social" "app-pw"; Start; Stop;
               Resume 0 (LoginDone (Resolved "did:plc:me"))]);
      [apply reachable_new | vm_compute; reflexivity]. }
  split; reflexivity.
Qed.

(** C4, amended.  [send()] goes by the agent (line 72).  With
    an agent in place, [send("bsky:" + k, text)] makes exactly
    one backend call, [sendMessage] to conversation [k] with [text], and
    the promise of [send()] settles the way that call does: a failure of
    the call is the failure of [send()], and nothing is logged.  Without an
    agent, [send()] makes no call, changes nothing and resolves. *)
Theorem send_contract (env : Env) (w : World) (k text : string) :
  (forall a,
     agent (chan w) = Some a ->
     let w1 := {| chan := chan w; heap := heap w;
                  pool := pool w ++ [AwaitSendMessage] |} in
     send ("bsky:" +:+ k) text w = (w1, [SendMessage a k text], None) /\
     forall o : Outcome unit,
       resume env (length (pool w)) (SendMessageDone o) w1 =
         Some ({| chan := chan w; heap := heap w; pool := pool w |}, [], Some o)) /\
  (agent (chan w) = None ->
   send ("bsky:" +:+ k) text w = (w, [], Some (Resolved tt))).
Proof.
  split.
  - intros a Ha w1. split.
    + unfold send. rewrite Ha.
      change ("bsky:" +:+ k) with (groupId_of k).
      now rewrite convoId_of_groupId_of.
    + intros o. unfold resume, w1. simpl. rewrite lookup_last. simpl.
      unfold send_resume. simpl.
      now rewrite (splice_last (pool w) _ []), app_nil_r.
  - intros Ha. unfold send. now rewrite Ha.
Qed.

Lemma send_contract_witness :
  agent (chan (logged_in_world AwaitSleep)) = Some 0 /\
  send "bsky:abc123" "hi" (logged_in_world AwaitSleep) =
    ({| chan := chan (logged_in_world AwaitSleep);
        heap := heap (logged_in_world AwaitSleep);
        pool := [AwaitSleep; AwaitSendMessage] |},
     [SendMessage 0 "abc123" "hi"], None) /\
  resume env0 1 (SendMessageDone (Rejected "rate limited"))
    {| chan := chan (logged_in_world AwaitSleep);
       heap := heap (logged_in_world AwaitSleep);
       pool := [AwaitSleep; AwaitSendMessage] |} =
    Some (logged_in_world AwaitSleep, [], Some (Rejected "rate limited")) /\
  agent (chan new_world) = None /\
  send "bsky:abc123" "hi" new_world = (new_world, [], Some (Resolved tt)).
Proof.
  destruct (send_contract env0 (logged_in_world AwaitSleep) "abc123" "hi") as [Hon _].
  destruct (Hon 0 eq_refl) as [Hcall Hsettle].
  destruct (send_contract env0 new_world "abc123" "hi") as [_ Hoff].
  split; [reflexivity|]. split; [exact Hcall|].
  split; [exact (Hsettle (Rejected "rate limited"))|].
  split; [reflexivity | exact (Hoff eq_refl)].
Defined.

(** [send()] goes by the agent, not by the [running] flag.  While [login]
    is pending the agent is in place and the flag is not yet set: [send()]
    calls the backend.  After a [stop()] during [login], a [login] that
    then succeeds sets the flag with no agent in place: [send()] makes no
    call. *)
Lemma send_goes_by_agent :
  run env0 [Configure "me.bsky.social" "app-pw"; Start; Send "bsky:abc123" "hi"]
      new_world =
    Some ({| chan := set_agent (Some 0)
                       (configure "me.bsky.social" "app-pw" new_channel);
             heap := [ {| service := "https://bsky.social"; session_did := None |} ];
             pool := [AwaitLogin 0; AwaitSendMessage] |},
          [Login 0 "me.bsky.social" "app-pw"; SendMessage 0 "abc123" "hi"]) /\
  run env0 [Configure "me.bsky.social" "app-pw"; Start; Stop;
            Resume 0 (LoginDone (Resolved "did:plc:me")); Send "bsky:abc123" "hi"]
      new_world =
    Some ({| chan := set_running true
                       (configure "me.bsky.social" "app-pw" new_channel);
             heap := [ {| service := "https://bsky.social";
                          session_did := Some "did:plc:me" |} ];
             pool := [] |},
          [Login 0 "me.bsky.social" "app-pw"]).
Proof. split; vm_compute; reflexivity. Qed.

(** ** Exceptions in the polling loop *)

(** C2, as stated, fails for the identity refresh.  In a channel that is
    running, with [poll()] waiting for [listConvos], a failure of
    [listConvos] leaves no effect at all, exactly as if [listConvos] had
    returned no conversation; the iteration goes on to [getLog], and the
    trace of the whole iteration shows no [console.error]. *)
Lemma refresh_failure_is_silent :
  reachable env0 (logged_in_world AwaitListConvos) /\
  running (chan (logged_in_world AwaitListConvos)) = true /\
  resume env0 0 (ListConvosDone (Rejected "network error"))
    (logged_in_world AwaitListConvos) =
    Some (logged_in_world AwaitRefresh, [], None) /\
  resume env0 0 (ListConvosDone (Rejected "network error"))
    (logged_in_world AwaitListConvos) =
    resume env0 0 (ListConvosDone (Resolved {| convos := Some [] |}))
      (logged_in_world AwaitListConvos) /\
  run env0 failed_refresh_iteration (logged_in_world AwaitListConvos) =
    Some (logged_in_world AwaitListConvos,
          [GetLog 0 (Some "c0"); Sleep 5000; ListConvos 0]) /\
  ~ logged "network error" [GetLog 0 (Some "c0"); Sleep 5000; ListConvos 0].
Proof.
  split; [exact logged_in_world_reachable|]. split; [reflexivity|].
  split; [vm_compute; reflexivity|]. split; [vm_compute; reflexivity|].
  split; [vm_compute; reflexivity|].
  intros (label & [H|[H|[H|[]]]]); discriminate.
Qed.

(** C2, amended.  The exceptions of an iteration that reach the [catch]
    of the loop are: the use of an agent that [stop()] has cleared, a
    failed [getLog] (thrown with the channel untouched), and whatever the
    processing of the batch throws, the callback included.  Each of them
    is handled with the channel as it was when the exception was thrown,
    the cursor with it: if the channel is still running the exception is
    logged, the loop sleeps and [poll()] stays alive; if [stop()] has been
    called, nothing is logged, there is no sleep and [poll()] returns.
    After the sleep, a channel that is running with an agent starts the
    next iteration with the identity refresh.  A failed [listConvos]
    never reaches the [catch] of the loop: it is dropped inside the
    refresh, unlogged, and the iteration goes on.  When [stop()] is called
    while [getLog] is pending, the iteration at most stores the returned
    cursor, and [poll()] returns. *)
Theorem poll_exception_handling (env : Env) (w : World) (i : nat) :
  (agent (chan w) = None ->
   try_after_refresh (chan w) = (chan w, [], Threw TypeError)) /\
  (forall err,
     try_after_getLog env (heap w) (Rejected err) (chan w) = (chan w, [], Threw err)) /\
  (forall data a ls c2 tr2 err,
     agent (chan w) = Some a -> logs data = Some ls ->
     process_logs env (heap w !! a ≫= session_did) ls (fst (store_cursor data (chan w))) =
       (c2, tr2, Throw err) ->
     try_after_getLog env (heap w) (Resolved data) (chan w) =
       (c2, snd (store_cursor data (chan w)) ++ tr2, Threw err)) /\
  (forall r w' tr s c1 tr1 err,
     resume env i r w = Some (w', tr, s) ->
     (pool w !! i = Some AwaitRefresh /\
      try_after_refresh (chan w) = (c1, tr1, Threw err)) \/
     (exists o, r = GetLogDone o /\
                try_after_getLog env (heap w) o (chan w) = (c1, tr1, Threw err)) ->
     chan w' = c1 /\
     if running c1
     then tr = tr1 ++ [ConsoleError "Bluesky poll error:" err;
                       Sleep (BLUESKY_POLL_INTERVAL env)] /\
          pool w' = splice i [AwaitSleep] (pool w) /\ s = None
     else tr = tr1 /\ pool w' = splice i [] (pool w) /\ s = Some (Resolved tt)) /\
  (forall a,
     pool w !! i = Some AwaitSleep ->
     running (chan w) = true -> agent (chan w) = Some a ->
     resume env i SleepDone w =
       Some ({| chan := chan w; heap := heap w;
                pool := splice i [AwaitListConvos] (pool w) |},
             [ListConvos a], None)) /\
  (forall err,
     pool w !! i = Some AwaitListConvos ->
     resume env i (ListConvosDone (Rejected err)) w =
       Some ({| chan := chan w; heap := heap w;
                pool := splice i [AwaitRefresh] (pool w) |},
             [], None)) /\
  (forall o w' tr s,
     resume env i (GetLogDone o) (fst (fst (on_chan stop w))) = Some (w', tr, s) ->
     Forall (fun e => is_SetCursor e = true) tr /\
     pool w' = splice i [] (pool w) /\
     s = Some (Resolved tt)).
Proof.
  split; [|split; [|split; [|split; [|split; [|split]]]]].
  - intros Ha. unfold try_after_refresh. now rewrite Ha.
  - reflexivity.
  - intros data a ls c2 tr2 err Ha Hls Hp. unfold try_after_getLog.
    assert (Ha1 : agent (fst (store_cursor data (chan w))) = Some a).
    { unfold store_cursor. now destruct (data_cursor data) as [[|x k]|]. }
    destruct (store_cursor data (chan w)) as [c1 tr1]; simpl in *.
    now rewrite Ha1, Hls, Hp.
  - intros r w' tr s c1 tr1 err H [[Ht E]|(o & -> & E)].
    + assert (r = RefreshDone) as ->.
      { unfold resume in H. rewrite Ht in H. now destruct r. }
      apply (resume_refresh_inv _ _ _ _ _ _ Ht) in H as (next & H & _ & Hp & Hs).
      rewrite E in H. simpl in H.
      destruct (running c1); simpl in H; injection H as <- <- <-; auto.
    + apply resume_getLog_inv in H as (next & H & _ & Hp & Hs).
      rewrite E in H. simpl in H.
      destruct (running c1); simpl in H; injection H as <- <- <-; auto.
  - intros a Ht Hr Ha. unfold resume. rewrite Ht. simpl.
    unfold poll_head, refresh_enter. rewrite Hr, Ha. reflexivity.
  - intros err Ht. unfold resume. now rewrite Ht.
  - intros o w' tr s H. apply resume_getLog_inv in H as (next & H & _ & Hp & Hs).
    simpl in H, Hp. unfold try_after_getLog in H.
    destruct o as [data|err]; simpl in H.
    + unfold store_cursor in H.
      destruct (data_cursor data) as [[|x k]|]; simpl in H;
        injection H as _ <- <-; subst s; repeat constructor; exact Hp.
    + injection H as _ <- <-. subst s. repeat constructor. exact Hp.
Qed.

Lemma poll_exception_handling_witness :
  resume env0 0 (GetLogDone (Rejected "network error")) (logged_in_world AwaitGetLog) =
    Some (logged_in_world AwaitSleep,
          [ConsoleError "Bluesky poll error:" "network error"; Sleep 5000], None) /\
  try_after_getLog env0 (heap (logged_in_world AwaitGetLog))
    (Rejected "network error") (chan (logged_in_world AwaitGetLog)) =
    (chan (logged_in_world AwaitGetLog), [], Threw "network error") /\
  chan (logged_in_world AwaitSleep) = chan (logged_in_world AwaitGetLog) /\
  resume env0 0 SleepDone (logged_in_world AwaitSleep) =
    Some (logged_in_world AwaitListConvos, [ListConvos 0], None).
Proof.
  destruct (poll_exception_handling env0 (logged_in_world AwaitGetLog) 0)
    as (_ & Hfetch & _ & Hcatch & _).
  destruct (poll_exception_handling env0 (logged_in_world AwaitSleep) 0)
    as (_ & _ & _ & _ & Hnext & _).
  assert (Hres :
    resume env0 0 (GetLogDone (Rejected "network error")) (logged_in_world AwaitGetLog) =
      Some (logged_in_world AwaitSleep,
            [ConsoleError "Bluesky poll error:" "network error"; Sleep 5000], None))
    by (vm_compute; reflexivity).
  split; [exact Hres|]. split; [exact (Hfetch "network error")|]. split.
  - exact (proj1 (Hcatch _ _ _ _ _ _ _ Hres
                    (or_intror (ex_intro _ (Rejected "network error")
                       (conj eq_refl (Hfetch "network error")))))).
  - exact (Hnext 0 eq_refl eq_refl eq_refl).
Defined.

(** A callback that throws: the exception is logged after the invocation,
    with the new cursor kept, and the loop goes to sleep. *)
Lemma throwing_callback_is_logged :
  resume env0 0 (GetLogDone (Resolved hello_batch))
    (fst (fst (on_chan (onMessage failing) (logged_in_world AwaitGetLog)))) =
    Some ({| chan := set_cursor (Some "c1")
                       (onMessage failing (chan (logged_in_world AwaitGetLog)));
             heap := heap (logged_in_world AwaitGetLog);
             pool := [AwaitSleep] |},
          [SetCursor "c1"; Invoke hello;
           ConsoleError "Bluesky poll error:" "callback failed"; Sleep 5000],
          None).
Proof. vm_compute. reflexivity. Qed.

(** * Further properties *)

(** ** The group id on the send path *)

Lemma strip_prefix_inv (p g rest : string) :
  strip_prefix p g = Some rest -> g = p +:+ rest.
Proof.
  revert g. induction p as [|a p IH]; simpl; intros g H.
  - now injection H as ->.
  - destruct g as [|b g]; [discriminate|].
    destruct (Ascii.eqb_spec a b) as [->|]; [|discriminate].
    now rewrite (IH g H).
Qed.

(** X1.  [send()] takes the conversation id to be the group id without a
    leading ["bsky:"], and the group id itself when it has no such prefix:
    rebuilding the group id from the result gives the original back
    exactly for the group ids that start with ["bsky:"]. *)
Theorem convoId_of_partial_inverse (g : string) :
  (has_prefix g = false -> convoId_of g = g) /\
  (has_prefix g = true -> groupId_of (convoId_of g) = g) /\
  (groupId_of (convoId_of g) = g <-> has_prefix g = true) /\
  forall (w : World) (a : AgentRef) (text : string),
    agent (chan w) = Some a ->
    snd (fst (send g text w)) =
      [SendMessage a (if has_prefix g then convoId_of g else g) text].
Proof.
  unfold has_prefix, convoId_of.
  destruct (strip_prefix bsky_prefix g) as [rest|] eqn:E.
  - apply strip_prefix_inv in E. subst g.
    split; [discriminate|]. split; [reflexivity|]. split; [tauto|].
    intros w a text Ha. unfold send, convoId_of. rewrite Ha.
    change (bsky_prefix +:+ rest) with (groupId_of rest).
    pose proof (convoId_of_groupId_of rest) as Hr. unfold convoId_of in Hr.
    simpl. now destruct (strip_prefix bsky_prefix (groupId_of rest)); subst.
  - split; [reflexivity|]. split; [discriminate|]. split.
    + split; [|discriminate]. intros H. unfold groupId_of in H.
      rewrite <- H, strip_prefix_app in E. discriminate.
    + intros w a text Ha. unfold send, convoId_of. now rewrite Ha, E.
Qed.

Lemma convoId_of_partial_inverse_witness :
  has_prefix "abc123" = false /\ convoId_of "abc123" = "abc123" /\
  has_prefix "bsky:abc123" = true /\
  groupId_of (convoId_of "bsky:abc123") = "bsky:abc123" /\
  snd (fst (send "abc123" "hi" (logged_in_world AwaitSleep))) =
    [SendMessage 0 "abc123" "hi"].
Proof.
  destruct (convoId_of_partial_inverse "abc123") as (Hno & _ & _ & Hsend).
  destruct (convoId_of_partial_inverse "bsky:abc123") as (_ & Hyes & _ & _).
  split; [reflexivity|]. split; [exact (Hno eq_refl)|].
  split; [reflexivity|]. split; [exact (Hyes eq_refl)|].
  exact (Hsend (logged_in_world AwaitSleep) 0 "hi" eq_refl).
Defined.

(** ** The identity cache under refresh *)

Lemma upsert_members_app (ms1 ms2 : list Member) (m : gmap string string) :
  upsert_members (ms1 ++ ms2) m = upsert_members ms2 (upsert_members ms1 m).
Proof.
  revert m. induction ms1 as [|mb ms1 IH]; simpl; intros m; [reflexivity|].
  apply IH.
Qed.

Lemma upsert_member_other (d : string) (mb : Member) (m : gmap string string) :
  writes_key d mb = false -> upsert_member mb m !! d = m !! d.
Proof.
  unfold writes_key, upsert_member.
  destruct (member_did mb) as [d'|]; [|reflexivity].
  destruct (member_handle mb) as [h|]; [|reflexivity].
  destruct (nonempty d' && nonempty h) eqn:E; [|reflexivity].
  destruct (String.eqb_spec d' d) as [->|Hne].
  - apply andb_true_iff in E as [-> ->]. discriminate.
  - intros _. now rewrite lookup_insert_ne.
Qed.

Lemma upsert_members_other (d : string) (ms : list Member) :
  Forall (fun mb => writes_key d mb = false) ms ->
  forall m, upsert_members ms m !! d = m !! d.
Proof.
  induction 1 as [|mb ms Hmb _ IH]; simpl; intros m; [reflexivity|].
  now rewrite IH, upsert_member_other.
Qed.

Lemma upsert_member_hit (d h : string) (m : gmap string string) :
  d <> "" -> h <> "" ->
  upsert_member {| member_did := Some d; member_handle := Some h |} m !! d = Some h.
Proof.
  intros Hd Hh. apply nonempty_iff in Hd. apply nonempty_iff in Hh.
  unfold upsert_member. simpl. rewrite Hd, Hh. simpl. apply lookup_insert_eq.
Qed.

(** X2.  Within one conversation the last member that is written under an
    id wins: after the members are handled, the cache maps the id to the
    handle of the last member carrying that id with id and handle both
    non-empty, whatever was cached before; an id that no member is written
    under keeps the entry it had, or stays absent. *)
Theorem upsert_last_wins (d : string) (ms : list Member) (m : gmap string string) :
  (forall ms1 ms2 h,
     ms = ms1 ++ {| member_did := Some d; member_handle := Some h |} :: ms2 ->
     d <> "" -> h <> "" ->
     Forall (fun mb => writes_key d mb = false) ms2 ->
     upsert_members ms m !! d = Some h) /\
  (Forall (fun mb => writes_key d mb = false) ms ->
   upsert_members ms m !! d = m !! d).
Proof.
  split.
  - intros ms1 ms2 h -> Hd Hh Hrest.
    rewrite upsert_members_app. simpl.
    rewrite (upsert_members_other d ms2 Hrest). now apply upsert_member_hit.
  - intros H. now apply upsert_members_other.
Qed.

Lemma upsert_last_wins_witness :
  upsert_members
    [ {| member_did := Some "did:plc:you"; member_handle := Some "old.bsky.social" |};
      {| member_did := Some "did:plc:you"; member_handle := Some "new.bsky.social" |};
      {| member_did := Some "did:plc:you"; member_handle := Some "" |} ]
    {[ "did:plc:you" := "stale.bsky.social" ]} !! "did:plc:you" =
    Some "new.bsky.social" /\
  upsert_members
    [ {| member_did := Some "did:plc:you"; member_handle := Some "" |} ]
    {[ "did:plc:you" := "stale.bsky.social" ]} !! "did:plc:you" =
    Some "stale.bsky.social".
Proof.
  split.
  - destruct (upsert_last_wins "did:plc:you"
      [ {| member_did := Some "did:plc:you"; member_handle := Some "old.bsky.social" |};
        {| member_did := Some "did:plc:you"; member_handle := Some "new.bsky.social" |};
        {| member_did := Some "did:plc:you"; member_handle := Some "" |} ]
      {[ "did:plc:you" := "stale.bsky.social" ]}) as [Hlast _].
    apply (Hlast
      [ {| member_did := Some "did:plc:you"; member_handle := Some "old.bsky.social" |} ]
      [ {| member_did := Some "did:plc:you"; member_handle := Some "" |} ]
      "new.bsky.social"); [reflexivity | discriminate | discriminate |].
    repeat constructor.
  - destruct (upsert_last_wins "did:plc:you"
      [ {| member_did := Some "did:plc:you"; member_handle := Some "" |} ]
      {[ "did:plc:you" := "stale.bsky.social" ]}) as [_ Hkeep].
    rewrite Hkeep; [reflexivity | repeat constructor].
Defined.

Lemma upsert_convos_app (cs1 cs2 : list Convo) (m : gmap string string) :
  upsert_convos (cs1 ++ cs2) m =
    match upsert_convos cs1 m with
    | (m1, Normal) => upsert_convos cs2 m1
    | (m1, Throw e) => (m1, Throw e)
    end.
Proof.
  revert m. induction cs1 as [|cv cs1 IH]; simpl; intros m; [reflexivity|].
  destruct (members cv); [apply IH | reflexivity].
Qed.

Lemma upsert_convos_readable (cs : list Convo) (m : gmap string string) :
  Forall (fun cv => is_Some (members cv)) cs ->
  snd (upsert_convos cs m) = Normal.
Proof.
  intros H. revert m. induction H as [|cv cs [ms Hms] _ IH]; simpl; intros m;
    [reflexivity|].
  rewrite Hms. apply IH.
Qed.

(** X3.  A conversation whose members cannot be iterated ends the refresh
    where it stands: the conversations before it have been written to the
    cache, those after it are not read, and nothing else of the channel
    changes; the exception goes no further than the refresh. *)
Theorem refresh_stops_at_unreadable_convo (cs1 cs2 : list Convo) (bad : Convo)
    (c : BlueskyChannel) :
  Forall (fun cv => is_Some (members cv)) cs1 ->
  members bad = None ->
  upsert_convos (cs1 ++ bad :: cs2) (didHandleMap c) =
    (fst (upsert_convos cs1 (didHandleMap c)), Throw TypeError) /\
  refresh_resume (Resolved {| convos := Some (cs1 ++ bad :: cs2) |}) c =
    refresh_resume (Resolved {| convos := Some cs1 |}) c /\
  refresh_resume (Resolved {| convos := Some (cs1 ++ bad :: cs2) |}) c =
    set_didHandleMap (fst (upsert_convos cs1 (didHandleMap c))) c.
Proof.
  intros Hok Hbad.
  assert (E : upsert_convos (cs1 ++ bad :: cs2) (didHandleMap c) =
              (fst (upsert_convos cs1 (didHandleMap c)), Throw TypeError)).
  { rewrite upsert_convos_app.
    pose proof (upsert_convos_readable cs1 (didHandleMap c) Hok) as Hn.
    destruct (upsert_convos cs1 (didHandleMap c)) as [m1 k]; simpl in *. subst k.
    now rewrite Hbad. }
  split; [exact E|]. unfold refresh_resume. simpl. now rewrite E.
Qed.

Lemma refresh_stops_at_unreadable_convo_witness :
  Forall (fun cv => is_Some (members cv))
    [ {| members := Some [ {| member_did := Some "did:plc:you";
                              member_handle := Some "you.bsky.social" |} ] |} ] /\
  members {| members := None |} = None /\
  didHandleMap
    (refresh_resume
       (Resolved {| convos := Some
          ([ {| members := Some [ {| member_did := Some "did:plc:you";
                                     member_handle := Some "you.bsky.social" |} ] |} ]
           ++ {| members := None |}
           :: [ {| members := Some [ {| member_did := Some "did:plc:late";
                                        member_handle := Some "late.bsky.social" |} ] |} ]) |})
       new_channel) = {[ "did:plc:you" := "you.bsky.social" ]}.
Proof.
  assert (Hok : Forall (fun cv => is_Some (members cv))
    [ {| members := Some [ {| member_did := Some "did:plc:you";
                              member_handle := Some "you.bsky.social" |} ] |} ])
    by (repeat constructor; eexists; reflexivity).
  split; [exact Hok|]. split; [reflexivity|].
  destruct (refresh_stops_at_unreadable_convo _
              [ {| members := Some [ {| member_did := Some "did:plc:late";
                                        member_handle := Some "late.bsky.social" |} ] |} ]
              {| members := None |} new_channel Hok eq_refl) as (_ & _ & ->).
  vm_compute. reflexivity.
Defined.

(** ** The cache is only ever added to *)

Lemma upsert_member_keeps (d : string) (mb : Member) (m : gmap string string) :
  is_Some (m !! d) -> is_Some (upsert_member mb m !! d).
Proof.
  intros H. unfold upsert_member.
  destruct (member_did mb) as [d'|]; [|exact H].
  destruct (member_handle mb) as [h|]; [|exact H].
  destruct (nonempty d' && nonempty h); [|exact H].
  destruct (decide (d' = d)) as [->|Hne].
  - rewrite lookup_insert_eq. eauto.
  - now rewrite lookup_insert_ne.
Qed.

Lemma upsert_members_keeps (d : string) (ms : list Member) :
  forall m, is_Some (m !! d) -> is_Some (upsert_members ms m !! d).
Proof.
  induction ms as [|mb ms IH]; simpl; intros m H; [exact H|].
  apply IH, upsert_member_keeps, H.
Qed.

Lemma upsert_convos_keeps (d : string) (cs : list Convo) :
  forall m, is_Some (m !! d) -> is_Some (fst (upsert_convos cs m) !! d).
Proof.
  induction cs as [|cv cs IH]; simpl; intros m H; [exact H|].
  destruct (members cv) as [ms|]; [|exact H].
  apply IH, upsert_members_keeps, H.
Qed.

Lemma refresh_resume_keeps (d : string) (r : Outcome ListConvosData)
    (c : BlueskyChannel) :
  is_Some (didHandleMap c !! d) -> is_Some (didHandleMap (refresh_resume r c) !! d).
Proof.
  intros H. destruct r as [data|e]; simpl; [|exact H].
  destruct (convos data) as [cs|]; simpl; [|exact H].
  apply upsert_convos_keeps, H.
Qed.

Lemma poll_resume_keeps (env : Env) (d : string) (hp : list AtpAgent) (t : Task)
    (r : Response) (c c' : BlueskyChannel) (tr : list Effect) (next : option Task) :
  poll_resume env hp t r c = Some (c', tr, next) ->
  is_Some (didHandleMap c !! d) -> is_Some (didHandleMap c' !! d).
Proof.
  intros H Hd. destruct t, r; simpl in H; try discriminate.
  - injection H as <- _ _. apply refresh_resume_keeps, Hd.
  - injection H as H.
    pose proof (after_try_chan env (try_after_refresh c)) as Ha.
    rewrite H in Ha. simpl in Ha. subst c'.
    unfold try_after_refresh. now destruct (agent c).
  - injection H as H.
    pose proof (after_try_chan env (try_after_getLog env hp r c)) as Ha.
    rewrite H in Ha. simpl in Ha. subst c'.
    destruct (try_after_getLog env hp r c) as [[c1 tr1] e1] eqn:E.
    apply try_after_getLog_didHandleMap in E. simpl. now rewrite E.
  - now injection H as <- _ _.
Qed.

Lemma step_keeps (env : Env) (d : string) (a : Action) (w w' : World)
    (tr : list Effect) (s : option (Outcome unit)) :
  step env a w = Some (w', tr, s) ->
  is_Some (didHandleMap (chan w) !! d) -> is_Some (didHandleMap (chan w') !! d).
Proof.
  intros H Hd. apply step_chan in H.
  destruct a; try (rewrite H; exact Hd).
  - destruct H as [->|[ag ->]]; exact Hd.
  - destruct H as (t & _ & H).
    destruct t; try (destruct H as (next & H); eapply poll_resume_keeps; eauto).
    + destruct H as [(err & _ & ->)|(d' & _ & ->)]; exact Hd.
    + rewrite H. exact Hd.
Qed.

(** X4.  Nothing is ever taken out of the identity cache: along every run
    of the channel ([stop()], restarts and failed refreshes included) an id
    that is in the cache stays in the cache. *)
Theorem cache_never_evicts (env : Env) (acts : list Action) (w w' : World)
    (tr : list Effect) (d : string) :
  run env acts w = Some (w', tr) ->
  is_Some (didHandleMap (chan w) !! d) ->
  is_Some (didHandleMap (chan w') !! d).
Proof.
  revert w tr. induction acts as [|a acts IH]; simpl; intros w tr H Hd.
  - now injection H as <- _.
  - destruct (step env a w) as [[[w1 tr1] s1]|] eqn:E; [|discriminate].
    destruct (run env acts w1) as [[w2 tr2]|] eqn:E2; [|discriminate].
    injection H as <- _. eapply IH; [exact E2|]. eapply step_keeps; eauto.
Qed.

Lemma cache_never_evicts_witness :
  run env0
    [ Stop; Start; Resume 1 (LoginDone (Rejected "AuthenticationRequired"));
      Resume 0 (ListConvosDone (Rejected "network error")) ]
    (logged_in_world AwaitListConvos) =
    Some ({| chan := stop (chan (logged_in_world AwaitListConvos));
             heap := heap (logged_in_world AwaitListConvos) ++
                     [ {| service := "https://bsky.social"; session_did := None |} ];
             pool := [AwaitRefresh] |},
          [Login 1 "me.bsky.social" "app-pw";
           ConsoleError "Bluesky login failed:" "AuthenticationRequired"]) /\
  is_Some (didHandleMap (chan (logged_in_world AwaitListConvos)) !! "did:plc:you") /\
  is_Some (didHandleMap (stop (chan (logged_in_world AwaitListConvos))) !! "did:plc:you").
Proof.
  assert (Hrun :
    run env0
      [ Stop; Start; Resume 1 (LoginDone (Rejected "AuthenticationRequired"));
        Resume 0 (ListConvosDone (Rejected "network error")) ]
      (logged_in_world AwaitListConvos) =
      Some ({| chan := stop (chan (logged_in_world AwaitListConvos));
               heap := heap (logged_in_world AwaitListConvos) ++
                       [ {| service := "https://bsky.social"; session_did := None |} ];
               pool := [AwaitRefresh] |},
            [Login 1 "me.bsky.social" "app-pw";
             ConsoleError "Bluesky login failed:" "AuthenticationRequired"]))
    by (vm_compute; reflexivity).
  assert (Hin : is_Some (didHandleMap (chan (logged_in_world AwaitListConvos))
                           !! "did:plc:you"))
    by (eexists; vm_compute; reflexivity).
  split; [exact Hrun|]. split; [exact Hin|].
  exact (cache_never_evicts env0 _ _ _ _ "did:plc:you" Hrun Hin).
Defined.

(** ** The cursor along a run *)

Lemma fetched_cursor_nonempty (a : Action) (w : World) (k : string) :
  fetched_cursor a w = Some k -> k <> "".
Proof.
  unfold fetched_cursor.
  destruct a as [| | | | | | |i r]; try discriminate.
  destruct r as [| | | |[data|err]|]; try discriminate.
  destruct (pool w !! i) as [[]|]; try discriminate.
  destruct (data_cursor data) as [[|x k']|]; simpl; try discriminate.
  intros [= <-]. discriminate.
Qed.

(** X5.  Along every run of the channel the stored cursor is never
    cleared and never empty: once a cursor is stored, some cursor stays
    stored ([stop()] and a restart do not reset it), and a stored cursor
    that is not the empty string is never replaced by the empty string. *)
Theorem cursor_never_cleared (env : Env) (acts : list Action) (w w' : World)
    (tr : list Effect) :
  run env acts w = Some (w', tr) ->
  (is_Some (cursor (chan w)) -> is_Some (cursor (chan w'))) /\
  (cursor (chan w) <> Some "" -> cursor (chan w') <> Some "").
Proof.
  revert w tr. induction acts as [|a acts IH]; simpl; intros w tr H.
  - injection H as <- _. auto.
  - destruct (step env a w) as [[[w1 tr1] s1]|] eqn:E; [|discriminate].
    destruct (run env acts w1) as [[w2 tr2]|] eqn:E2; [|discriminate].
    injection H as <- _. destruct (IH _ _ E2) as [IH1 IH2].
    pose proof (step_cursor env _ _ _ _ _ E) as Hc.
    destruct (fetched_cursor a w) as [k|] eqn:Hf.
    + apply fetched_cursor_nonempty in Hf. split; intros _.
      * apply IH1. rewrite Hc. eauto.
      * apply IH2. rewrite Hc. congruence.
    + rewrite Hc in IH1, IH2. auto.
Qed.

Lemma cursor_never_cleared_witness :
  run env0
    [ Resume 0 (GetLogDone (Resolved {| data_cursor := Some ""; logs := Some [] |}));
      Stop; Resume 0 SleepDone ]
    (logged_in_world AwaitGetLog) =
    Some ({| chan := stop (chan (logged_in_world AwaitGetLog));
             heap := heap (logged_in_world AwaitGetLog); pool := [] |},
          [Sleep 5000]) /\
  is_Some (cursor (stop (chan (logged_in_world AwaitGetLog)))) /\
  cursor (stop (chan (logged_in_world AwaitGetLog))) <> Some "".
Proof.
  assert (Hrun :
    run env0
      [ Resume 0 (GetLogDone (Resolved {| data_cursor := Some ""; logs := Some [] |}));
        Stop; Resume 0 SleepDone ]
      (logged_in_world AwaitGetLog) =
      Some ({| chan := stop (chan (logged_in_world AwaitGetLog));
               heap := heap (logged_in_world AwaitGetLog); pool := [] |},
            [Sleep 5000]))
    by (vm_compute; reflexivity).
  destruct (cursor_never_cleared env0 _ _ _ _ Hrun) as [Hsome Hne].
  split; [exact Hrun|]. split.
  - apply Hsome. eexists. reflexivity.
  - apply Hne. discriminate.
Defined.

(** ** One turn of the loop *)

Lemma splice_lookup (i : nat) (t : Task) (p : list Task) :
  i < length p -> splice i [t] p !! i = Some t.
Proof.
  intros Hi. unfold splice. apply list_lookup_middle.
  rewrite length_take. lia.
Qed.

Lemma splice_splice (i : nat) (t : Task) (ts p : list Task) :
  i < length p -> splice i ts (splice i [t] p) = splice i ts p.
Proof.
  intros Hi. unfold splice.
  assert (Hl : length (take i p) = i) by (rewrite length_take; lia).
  rewrite take_app_length' by (symmetry; exact Hl).
  f_equal. f_equal.
  rewrite app_assoc.
  rewrite drop_app_length'; [reflexivity|].
  rewrite length_app, Hl. simpl. lia.
Qed.

Section Turns.

Variable env : Env.

Lemma resume_sleep (i : nat) (w : World) :
  pool w !! i = Some AwaitSleep ->
  resume env i SleepDone w =
    Some ({| chan := chan w; heap := heap w;
             pool := splice i (option_list (snd (poll_head (chan w)))) (pool w) |},
          fst (poll_head (chan w)),
          match snd (poll_head (chan w)) with
          | None => Some (Resolved tt)
          | Some _ => None
          end).
Proof. intros Ht. unfold resume. now rewrite Ht. Qed.

Lemma resume_listConvos (i : nat) (r : Outcome ListConvosData) (w : World) :
  pool w !! i = Some AwaitListConvos ->
  resume env i (ListConvosDone r) w =
    Some ({| chan := refresh_resume r (chan w); heap := heap w;
             pool := splice i [AwaitRefresh] (pool w) |}, [], None).
Proof. intros Ht. unfold resume. now rewrite Ht. Qed.

Lemma resume_refresh (i : nat) (a : AgentRef) (w : World) :
  pool w !! i = Some AwaitRefresh -> agent (chan w) = Some a ->
  resume env i RefreshDone w =
    Some ({| chan := chan w; heap := heap w;
             pool := splice i [AwaitGetLog] (pool w) |},
          [GetLog a (cursor (chan w))], None).
Proof.
  intros Ht Ha. unfold resume. rewrite Ht. simpl.
  unfold try_after_refresh. now rewrite Ha.
Qed.

Lemma poll_head_running (c : BlueskyChannel) (a : AgentRef) :
  running c = true -> agent c = Some a ->
  poll_head c = ([ListConvos a], Some AwaitListConvos).
Proof.
  intros Hr Ha. unfold poll_head, refresh_enter. now rewrite Hr, Ha.
Qed.

Lemma poll_head_stopped (c : BlueskyChannel) :
  running c = false \/ agent c = None -> poll_head c = ([], None).
Proof.
  unfold poll_head. intros [->| ->]; [reflexivity|].
  now rewrite andb_false_r.
Qed.

(** X6.  One turn of a running loop, from the end of the sleep to the
    fetch: the loop calls [listConvos] and then [getLog], both on the
    current agent, and whatever [listConvos] answers (conversations, an
    unreadable answer, a failure) [getLog] is called with exactly the
    cursor that was stored when the turn began; the refresh has touched
    the cache only. *)
Theorem turn_fetches_with_stored_cursor (w : World) (i : nat) (a : AgentRef)
    (r : Outcome ListConvosData) :
  pool w !! i = Some AwaitSleep ->
  running (chan w) = true -> agent (chan w) = Some a ->
  run env [Resume i SleepDone; Resume i (ListConvosDone r); Resume i RefreshDone] w =
    Some ({| chan := refresh_resume r (chan w); heap := heap w;
             pool := splice i [AwaitGetLog] (pool w) |},
          [ListConvos a; GetLog a (cursor (chan w))]).
Proof.
  intros Ht Hr Ha.
  assert (Hi : i < length (pool w)) by (eapply lookup_lt_Some; eauto).
  destruct (refresh_resume_fields r (chan w)) as (Hag & _ & Hcur & _).
  unfold run, step.
  rewrite (resume_sleep i w Ht), (poll_head_running _ a Hr Ha). simpl.
  rewrite resume_listConvos by (simpl; now apply splice_lookup). simpl.
  rewrite splice_splice by exact Hi.
  rewrite (resume_refresh i a)
    by first [simpl; apply splice_lookup; exact Hi | simpl; congruence].
  simpl. rewrite splice_splice by exact Hi. now rewrite Hcur.
Qed.

End Turns.

Lemma turn_fetches_with_stored_cursor_witness :
  pool (logged_in_world AwaitSleep) !! 0 = Some AwaitSleep /\
  running (chan (logged_in_world AwaitSleep)) = true /\
  agent (chan (logged_in_world AwaitSleep)) = Some 0 /\
  run env0
    [Resume 0 SleepDone; Resume 0 (ListConvosDone (Rejected "network error"));
     Resume 0 RefreshDone]
    (logged_in_world AwaitSleep) =
    Some (logged_in_world AwaitGetLog, [ListConvos 0; GetLog 0 (Some "c0")]).
Proof.
  split; [reflexivity|]. split; [reflexivity|]. split; [reflexivity|].
  rewrite (turn_fetches_with_stored_cursor env0 (logged_in_world AwaitSleep) 0 0
             (Rejected "network error") eq_refl eq_refl eq_refl).
  reflexivity.
Defined.

(** ** Configuring, starting, stopping *)

Section Lifecycle.

Variable env : Env.

Lemma start_fresh (w : World) :
  isConfigured (chan w) = true -> running (chan w) = false ->
  start env w =
    ({| chan := set_agent (Some (length (heap w))) (chan w);
        heap := heap w ++ [{| service := BLUESKY_SERVICE env; session_did := None |}];
        pool := pool w ++ [AwaitLogin (length (heap w))] |},
     [Login (length (heap w)) (identifier (chan w)) (password (chan w))],
     None).
Proof.
  unfold isConfigured, start. intros Hc Hr.
  apply andb_true_iff in Hc as [-> ->]. now rewrite Hr.
Qed.

Lemma start_idle (w : World) :
  isConfigured (chan w) = false \/ running (chan w) = true ->
  start env w = (w, [], Some (Resolved tt)).
Proof.
  unfold isConfigured, start. intros [Hc|Hr].
  - apply andb_false_iff in Hc as [-> | ->]; simpl; [reflexivity|].
    now rewrite orb_true_r.
  - rewrite Hr.
    now destruct (negb (nonempty (identifier (chan w))) || negb (nonempty (password (chan w)))).
Qed.

Lemma resume_login_ok (i : nat) (a : AgentRef) (d : string) (w : World) :
  pool w !! i = Some (AwaitLogin a) ->
  resume env i (LoginDone (Resolved d)) w =
    Some ({| chan := set_running true (chan w);
             heap := alter (logged_in d) a (heap w);
             pool := splice i (option_list (snd (poll_head (set_running true (chan w)))))
                           (pool w) |},
          fst (poll_head (set_running true (chan w))),
          Some (Resolved tt)).
Proof.
  intros Ht. unfold resume. rewrite Ht. unfold start_resume.
  now destruct (poll_head (set_running true (chan w))).
Qed.

(** X7.  [start()] right after [configure(i, p)] on a channel that is not
    running: [isConfigured()] holds exactly when [i] and [p] are both
    non-empty, whatever was configured before, and exactly then [start()]
    calls [login], once, on a new agent, with [i] and [p]; otherwise it
    calls nothing. *)
Theorem configure_then_start (w : World) (i p : string) :
  running (chan w) = false ->
  (isConfigured (configure i p (chan w)) = true <-> i <> "" /\ p <> "") /\
  exists w',
    run env [Configure i p; Start] w =
      Some (w',
            if isConfigured (configure i p (chan w))
            then [Login (length (heap w)) i p]
            else []) /\
    identifier (chan w') = i /\ password (chan w') = p /\
    running (chan w') = false.
Proof.
  intros Hr. split.
  - unfold isConfigured, configure. simpl.
    rewrite andb_true_iff, !nonempty_iff. tauto.
  - unfold run, step, on_chan. cbv beta iota.
    destruct (isConfigured (configure i p (chan w))) eqn:Hc.
    + rewrite start_fresh by (simpl; assumption). simpl. eauto.
    + rewrite start_idle by (left; simpl; assumption). simpl. eauto.
Qed.

(** X8.  A [start()] whose [login] succeeds, with nothing in between:
    the channel is running on a new agent, that agent holds the session of
    the identity [login] returned, and [poll()] has made its first call,
    [listConvos] on that agent, and waits for it.  The promise of
    [start()] resolves without waiting for [poll()]. *)
Theorem start_then_login (w : World) (d : string) :
  isConfigured (chan w) = true -> running (chan w) = false ->
  exists w',
    run env [Start; Resume (length (pool w)) (LoginDone (Resolved d))] w =
      Some (w', [Login (length (heap w)) (identifier (chan w)) (password (chan w));
                 ListConvos (length (heap w))]) /\
    chan w' = set_running true (set_agent (Some (length (heap w))) (chan w)) /\
    heap w' !! length (heap w) =
      Some {| service := BLUESKY_SERVICE env; session_did := Some d |} /\
    (forall a, a < length (heap w) -> heap w' !! a = heap w !! a) /\
    pool w' = pool w ++ [AwaitListConvos].
Proof.
  intros Hc Hr. unfold run, step. rewrite (start_fresh w Hc Hr).
  rewrite (resume_login_ok _ (length (heap w))) by (simpl; apply lookup_last).
  rewrite (poll_head_running _ (length (heap w))) by reflexivity. simpl.
  eexists. split; [reflexivity|]. simpl. split; [reflexivity|].
  split; [|split].
  - rewrite list_lookup_alter_eq, list_lookup_middle by reflexivity. reflexivity.
  - intros a Ha. rewrite list_lookup_alter_ne by lia. now apply lookup_app_l.
  - apply (splice_last (pool w) _ [AwaitListConvos]).
Qed.

(** X9.  Stopping and starting again picks up where the channel was: after
    [stop()], [start()] and a successful [login], the first fetch of the
    new loop is made with the cursor stored before the [stop()], on the
    new agent, and the identity cache is the old one plus what the first
    refresh adds. *)
Theorem restart_resumes_from_cursor (w : World) (d : string)
    (r : Outcome ListConvosData) :
  isConfigured (chan w) = true ->
  let n := length (pool w) in
  let a := length (heap w) in
  exists w',
    run env [Stop; Start; Resume n (LoginDone (Resolved d));
             Resume n (ListConvosDone r); Resume n RefreshDone] w =
      Some (w', [Login a (identifier (chan w)) (password (chan w));
                 ListConvos a; GetLog a (cursor (chan w))]) /\
    cursor (chan w') = cursor (chan w) /\
    didHandleMap (chan w') = didHandleMap (refresh_resume r (chan w)) /\
    pool w' = pool w ++ [AwaitGetLog].
Proof.
  intros Hc n a. subst n a.
  set (c2 := set_running true (set_agent (Some (length (heap w))) (stop (chan w)))).
  destruct (refresh_resume_fields r c2) as (Hag & _ & Hcur & _).
  unfold run, step, on_chan. cbv beta iota.
  rewrite start_fresh by (cbn [chan]; first [exact Hc | reflexivity]).
  cbn [chan heap pool].
  rewrite (resume_login_ok _ (length (heap w))) by (cbn [pool]; apply lookup_last).
  rewrite (poll_head_running _ (length (heap w))) by reflexivity.
  cbn [chan heap pool fst snd option_list option_rect]. rewrite splice_last. fold c2.
  rewrite resume_listConvos by (cbn [pool]; apply lookup_last).
  cbn [chan heap pool]. rewrite splice_last.
  rewrite (resume_refresh _ _ (length (heap w)))
    by (cbn [chan pool]; first [apply lookup_last | rewrite Hag; reflexivity]).
  cbn [chan heap pool]. rewrite splice_last, Hcur.
  eexists. split; [reflexivity|]. cbn [chan pool].
  split; [exact Hcur|]. split; [|reflexivity].
  destruct r as [data|err]; [|reflexivity].
  simpl. now destruct (convos data).
Qed.

(** X10.  A [stop()] while [login] is pending does not cancel the
    [start()].  When [login] then succeeds, the channel is marked running
    although it has no agent and no [poll()] runs; in that state [start()]
    returns at once and [send()] sends nothing, until [stop()] is called
    again. *)
Theorem stop_during_login (w : World) (i : nat) (a : AgentRef) (d : string) :
  pool w !! i = Some (AwaitLogin a) ->
  agent (chan w) = None ->
  exists w',
    resume env i (LoginDone (Resolved d)) w = Some (w', [], Some (Resolved tt)) /\
    running (chan w') = true /\ agent (chan w') = None /\
    pool w' = splice i [] (pool w) /\
    start env w' = (w', [], Some (Resolved tt)) /\
    (forall g text, send g text w' = (w', [], Some (Resolved tt))) /\
    (isConfigured (chan w) = true ->
     snd (fst (start env (fst (fst (on_chan stop w'))))) =
       [Login (length (heap w)) (identifier (chan w)) (password (chan w))]).
Proof.
  intros Ht Ha. rewrite (resume_login_ok i a d w Ht).
  rewrite poll_head_stopped by (right; exact Ha). simpl.
  eexists. split; [reflexivity|]. simpl.
  split; [reflexivity|]. split; [exact Ha|]. split; [reflexivity|].
  split; [apply start_idle; right; reflexivity|].
  split.
  - intros g text. unfold send. simpl. now rewrite Ha.
  - intros Hc. rewrite start_fresh by (simpl; first [exact Hc | reflexivity]).
    simpl. now rewrite length_alter.
Qed.

(** X11.  A [poll()] that is asleep across a [stop()] and a new [start()]
    is not ended by them: once [login] has succeeded it finds the channel
    running when it wakes, and polls on, next to the [poll()] of the new
    [start()].  Both call [listConvos] on the new agent. *)
Theorem restart_keeps_sleeping_loop (w : World) (i : nat) (d : string) :
  pool w !! i = Some AwaitSleep ->
  isConfigured (chan w) = true ->
  let n := length (pool w) in
  let a := length (heap w) in
  exists w',
    run env [Stop; Start; Resume n (LoginDone (Resolved d)); Resume i SleepDone] w =
      Some (w', [Login a (identifier (chan w)) (password (chan w));
                 ListConvos a; ListConvos a]) /\
    pool w' !! i = Some AwaitListConvos /\
    pool w' !! n = Some AwaitListConvos /\
    i <> n.
Proof.
  intros Ht Hc n a. subst n a.
  assert (Hi : i < length (pool w)) by (eapply lookup_lt_Some; eauto).
  set (c2 := set_running true (set_agent (Some (length (heap w))) (stop (chan w)))).
  unfold run, step, on_chan. cbv beta iota.
  rewrite start_fresh by (cbn [chan]; first [exact Hc | reflexivity]).
  cbn [chan heap pool].
  rewrite (resume_login_ok _ (length (heap w))) by (cbn [pool]; apply lookup_last).
  rewrite (poll_head_running _ (length (heap w))) by reflexivity.
  cbn [chan heap pool fst snd option_list option_rect]. rewrite splice_last. fold c2.
  rewrite resume_sleep by (cbn [pool]; rewrite lookup_app_l by exact Hi; exact Ht).
  cbn [chan heap pool].
  rewrite (poll_head_running c2 (length (heap w))) by reflexivity.
  cbn [fst snd option_list option_rect].
  eexists. split; [reflexivity|]. cbn [pool].
  split; [|split; [|lia]].
  - apply splice_lookup. rewrite length_app. simpl. lia.
  - unfold splice.
    rewrite take_app_le, drop_app_le by lia.
    rewrite !app_assoc. apply list_lookup_middle.
    rewrite !length_app, length_take, length_drop. simpl. lia.
Qed.


End Lifecycle.
Lemma configure_then_start_witness :
  running (chan new_world) = false /\
  (exists w', run env0 [Configure "me.bsky.social" "app-pw"; Start] new_world =
                Some (w', [Login 0 "me.bsky.social" "app-pw"])) /\
  (exists w', run env0 [Configure "me.bsky.social" ""; Start] new_world =
                Some (w', [])).
Proof.
  split; [reflexivity|]. split.
  - destruct (configure_then_start env0 new_world "me.bsky.social" "app-pw" eq_refl)
      as (_ & w' & H & _).
    exists w'. exact H.
  - destruct (configure_then_start env0 new_world "me.bsky.social" "" eq_refl)
      as (_ & w' & H & _).
    exists w'. exact H.
Defined.

Lemma start_then_login_witness :
  isConfigured (chan configured_world) = true /\
  running (chan configured_world) = false /\
  exists w',
    run env0 [Start; Resume 0 (LoginDone (Resolved "did:plc:me"))] configured_world =
      Some (w', [Login 0 "me.bsky.social" "app-pw"; ListConvos 0]) /\
    heap w' !! 0 =
      Some {| service := "https://bsky.social"; session_did := Some "did:plc:me" |} /\
    pool w' = [AwaitListConvos].
Proof.
  split; [reflexivity|]. split; [reflexivity|].
  destruct (start_then_login env0 configured_world "did:plc:me" eq_refl eq_refl)
    as (w' & Hrun & _ & Hheap & _ & Hpool).
  exists w'. split; [exact Hrun|]. split; [exact Hheap | exact Hpool].
Defined.

Lemma restart_resumes_from_cursor_witness :
  isConfigured (chan (logged_in_world AwaitSleep)) = true /\
  exists w',
    run env0 [Stop; Start; Resume 1 (LoginDone (Resolved "did:plc:me"));
              Resume 1 (ListConvosDone (Resolved convos0)); Resume 1 RefreshDone]
      (logged_in_world AwaitSleep) =
      Some (w', [Login 1 "me.bsky.social" "app-pw"; ListConvos 1;
                 GetLog 1 (Some "c0")]) /\
    pool w' = [AwaitSleep; AwaitGetLog].
Proof.
  split; [reflexivity|].
  destruct (restart_resumes_from_cursor env0 (logged_in_world AwaitSleep)
              "did:plc:me" (Resolved convos0) eq_refl)
    as (w' & Hrun & _ & _ & Hpool).
  exists w'. split; [exact Hrun | exact Hpool].
Defined.

Lemma stop_during_login_witness :
  run env0 [Configure "me.bsky.social" "app-pw"; Start; Stop] new_world =
    Some (stopped_at_login, [Login 0 "me.bsky.social" "app-pw"]) /\
  pool stopped_at_login !! 0 = Some (AwaitLogin 0) /\
  agent (chan stopped_at_login) = None /\
  exists w',
    resume env0 0 (LoginDone (Resolved "did:plc:me")) stopped_at_login =
      Some (w', [], Some (Resolved tt)) /\
    running (chan w') = true /\ agent (chan w') = None /\ pool w' = [] /\
    start env0 w' = (w', [], Some (Resolved tt)).
Proof.
  split; [vm_compute; reflexivity|]. split; [reflexivity|]. split; [reflexivity|].
  destruct (stop_during_login env0 stopped_at_login 0 0 "did:plc:me" eq_refl eq_refl)
    as (w' & Hres & Hrun & Hag & Hpool & Hstart & _).
  exists w'. auto 10.
Defined.

Lemma restart_keeps_sleeping_loop_witness :
  pool (logged_in_world AwaitSleep) !! 0 = Some AwaitSleep /\
  isConfigured (chan (logged_in_world AwaitSleep)) = true /\
  exists w',
    run env0 [Stop; Start; Resume 1 (LoginDone (Resolved "did:plc:me"));
              Resume 0 SleepDone]
      (logged_in_world AwaitSleep) =
      Some (w', [Login 1 "me.bsky.social" "app-pw"; ListConvos 1; ListConvos 1]) /\
    pool w' !! 0 = Some AwaitListConvos /\
    pool w' !! 1 = Some AwaitListConvos.
Proof.
  split; [reflexivity|]. split; [reflexivity|].
  destruct (restart_keeps_sleeping_loop env0 (logged_in_world AwaitSleep) 0
              "did:plc:me" eq_refl eq_refl)
    as (w' & Hrun & H0 & H1 & _).
  exists w'. auto.
Defined.


(** ** What a batch delivers *)

Section Delivery.

Variable env : Env.

Lemma process_logs_app (my : option string) (ls1 ls2 : list LogEntry) :
  forall c : BlueskyChannel,
  process_logs env my (ls1 ++ ls2) c =
    match process_logs env my ls1 c with
    | (c1, tr1, Normal) =>
        let '(c2, tr2, k) := process_logs env my ls2 c1 in (c2, tr1 ++ tr2, k)
    | (c1, tr1, Throw e) => (c1, tr1, Throw e)
    end.
Proof.
  induction ls1 as [|log ls1 IH]; simpl; intros c.
  - now destruct (process_logs env my ls2 c) as [[c2 tr2] k].
  - destruct (process_log env my log c) as [[c1 tr1] [|e]]; [|reflexivity].
    rewrite IH.
    destruct (process_logs env my ls1 c1) as [[c2 tr2] [|e]]; [|reflexivity].
    destruct (process_logs env my ls2 c2) as [[c3 tr3] k].
    now rewrite app_assoc.
Qed.

(** The loop body in terms of [delivery], for a callback that returns. *)
Lemma process_log_delivery (my : option string) (log : LogEntry)
    (c : BlueskyChannel) (cb : MessageCallback) :
  messageCallback c = Some cb ->
  (forall m, cb_throw (cb m) = None) ->
  sender_readable log = true ->
  process_log env my log c =
    match delivery env (didHandleMap c) my log with
    | Some m => (if cb_stop (cb m) then stop c else c, [Invoke m], Normal)
    | None => (c, [], Normal)
    end.
Proof.
  intros Hcb Hret. unfold sender_readable, delivery, process_log, actionable.
  destruct (String.eqb (log_type log) logCreateMessage); simpl; [|reflexivity].
  destruct (message log) as [msg|]; [|reflexivity].
  destruct (String.eqb (msg_type msg) messageView); simpl; [|reflexivity].
  destruct (msg_sender msg) as [s|]; [|discriminate]. intros _.
  destruct (strict_eq (did s) my); [reflexivity|].
  unfold invoke_callback. now rewrite Hcb, Hret.
Qed.

Lemma process_logs_delivery (my : option string) (cb : MessageCallback)
    (cache : gmap string string) (ls : list LogEntry) :
  (forall m, cb_throw (cb m) = None) ->
  Forall (fun log => sender_readable log = true) ls ->
  forall c,
    messageCallback c = Some cb -> didHandleMap c = cache ->
    exists c',
      process_logs env my ls c =
        (c', map Invoke (omap (delivery env cache my) ls), Normal) /\
      stopped_or_same c c'.
Proof.
  intros Hret Hall. induction Hall as [|log ls Hlog _ IH]; intros c Hcb Hm.
  - exists c. split; [reflexivity | now left].
  - simpl. rewrite (process_log_delivery my log c cb Hcb Hret Hlog), Hm.
    destruct (delivery env cache my log) as [m|].
    + destruct (IH (if cb_stop (cb m) then stop c else c)) as (c' & E & Hc').
      { now destruct (cb_stop (cb m)). }
      { now destruct (cb_stop (cb m)). }
      rewrite E. exists c'. split; [reflexivity|].
      eapply stopped_or_same_trans; [|exact Hc'].
      destruct (cb_stop (cb m)); [now right | now left].
    + destruct (IH c Hcb Hm) as (c' & E & Hc'). rewrite E. eauto.
Qed.

(** X13.  With a callback that returns, an iteration over a batch whose
    senders can be read invokes the callback exactly once for each
    "message created" event with a "message view" that the session did not
    send itself, in the order of the batch, with the message built from
    the event and from the cache as it was when the batch arrived; then it
    sleeps.  A [stop()] from inside the callback changes none of this: the
    rest of the batch is still delivered. *)
Theorem batch_delivered_in_order (w w' : World) (i : nat) (data : GetLogData)
    (a : AgentRef) (ls : list LogEntry) (cb : MessageCallback)
    (tr : list Effect) (s : option (Outcome unit)) :
  agent (chan w) = Some a -> logs data = Some ls ->
  messageCallback (chan w) = Some cb ->
  (forall m, cb_throw (cb m) = None) ->
  Forall (fun log => sender_readable log = true) ls ->
  resume env i (GetLogDone (Resolved data)) w = Some (w', tr, s) ->
  tr = snd (store_cursor data (chan w)) ++
       map Invoke (omap (delivery env (didHandleMap (chan w))
                                  (heap w !! a ≫= session_did)) ls) ++
       [Sleep (BLUESKY_POLL_INTERVAL env)] /\
  pool w' = splice i [AwaitSleep] (pool w).
Proof.
  intros Ha Hls Hcb Hret Hall H.
  apply resume_getLog_inv in H as (next & H & _ & Hp & _).
  unfold try_after_getLog in H.
  assert (Hf : agent (fst (store_cursor data (chan w))) = Some a /\
               messageCallback (fst (store_cursor data (chan w))) = Some cb /\
               didHandleMap (fst (store_cursor data (chan w))) = didHandleMap (chan w)).
  { unfold store_cursor. now destruct (data_cursor data) as [[|x k]|]. }
  destruct (store_cursor data (chan w)) as [c1 tr1]; simpl in Hf |- *.
  destruct Hf as (Ha1 & Hcb1 & Hm1). rewrite Ha1, Hls in H.
  destruct (process_logs_delivery (heap w !! a ≫= session_did) cb
              (didHandleMap (chan w)) ls Hret Hall c1 Hcb1 Hm1) as (c' & E & _).
  rewrite E in H. simpl in H. injection H as _ <- <-.
  split; [now rewrite <- app_assoc | exact Hp].
Qed.

(** X14.  When the processing of an event throws, the events after it in
    the batch are never looked at: the iteration is the same as for the
    batch cut off after that event.  The cursor of the batch has been
    stored by then, so the next fetch does not ask for them again. *)
Theorem throw_drops_rest_of_batch (w : World) (i : nat) (data : GetLogData)
    (a : AgentRef) (ls1 ls2 : list LogEntry) (log : LogEntry)
    (c1 c2 : BlueskyChannel) (tr1 tr2 : list Effect) (err : JsError) :
  agent (chan w) = Some a ->
  logs data = Some (ls1 ++ log :: ls2) ->
  process_logs env (heap w !! a ≫= session_did) ls1 (fst (store_cursor data (chan w))) =
    (c1, tr1, Normal) ->
  process_log env (heap w !! a ≫= session_did) log c1 = (c2, tr2, Throw err) ->
  resume env i (GetLogDone (Resolved data)) w =
    resume env i
      (GetLogDone (Resolved {| data_cursor := data_cursor data;
                               logs := Some (ls1 ++ [log]) |})) w /\
  try_after_getLog env (heap w) (Resolved data) (chan w) =
    (c2, snd (store_cursor data (chan w)) ++ tr1 ++ tr2, Threw err) /\
  cursor c2 = cursor (fst (store_cursor data (chan w))).
Proof.
  intros Ha Hls H1 H2.
  assert (Hcut : forall rest,
    process_logs env (heap w !! a ≫= session_did) (ls1 ++ log :: rest)
      (fst (store_cursor data (chan w))) = (c2, tr1 ++ tr2, Throw err)).
  { intros rest. rewrite process_logs_app, H1. simpl. now rewrite H2. }
  assert (Ha1 : agent (fst (store_cursor data (chan w))) = Some a).
  { unfold store_cursor. now destruct (data_cursor data) as [[|x k]|]. }
  assert (Htry : forall rest,
    try_after_getLog env (heap w)
      (Resolved {| data_cursor := data_cursor data; logs := Some (ls1 ++ log :: rest) |})
      (chan w) =
    (c2, snd (store_cursor data (chan w)) ++ tr1 ++ tr2, Threw err)).
  { intros rest. unfold try_after_getLog.
    change (store_cursor {| data_cursor := data_cursor data;
                            logs := Some (ls1 ++ log :: rest) |} (chan w))
      with (store_cursor data (chan w)).
    specialize (Hcut rest).
    destruct (store_cursor data (chan w)) as [c0 tr0]; simpl in *.
    now rewrite Ha1, Hcut. }
  assert (Hdata : try_after_getLog env (heap w) (Resolved data) (chan w) =
                  (c2, snd (store_cursor data (chan w)) ++ tr1 ++ tr2, Threw err)).
  { rewrite <- (Htry ls2). unfold try_after_getLog.
    change (store_cursor {| data_cursor := data_cursor data;
                            logs := Some (ls1 ++ log :: ls2) |} (chan w))
      with (store_cursor data (chan w)).
    simpl. now rewrite Hls. }
  split; [|split; [exact Hdata|]].
  - apply resume_getLog_congr. rewrite Hdata. symmetry. apply (Htry []).
  - apply process_logs_spec in H1 as [H1 _]. apply process_log_spec in H2 as [H2 _].
    apply stopped_or_same_cursor in H1, H2. congruence.
Qed.

Lemma process_logs_no_callback (my : option string) (ls : list LogEntry)
    (c c' : BlueskyChannel) (tr : list Effect) (k : Completion) :
  messageCallback c = None ->
  process_logs env my ls c = (c', tr, k) ->
  c' = c /\ tr = [].
Proof.
  intros Hcb. revert c' tr k. induction ls as [|log ls IH]; simpl; intros c' tr k H.
  - now injection H as <- <- _.
  - assert (E : exists k1, process_log env my log c = (c, [], k1)).
    { unfold process_log.
      destruct (negb (String.eqb (log_type log) logCreateMessage)); [eauto|].
      destruct (message log) as [msg|]; [|eauto].
      destruct (negb (String.eqb (msg_type msg) messageView)); [eauto|].
      destruct (msg_sender msg) as [s|]; [|eauto].
      destruct (strict_eq (did s) my); [eauto|].
      unfold invoke_callback. rewrite Hcb. eauto. }
    destruct E as (k1 & E). rewrite E in H. destruct k1 as [|e].
    + destruct (process_logs env my ls c) as [[c2 tr2] k2] eqn:E2.
      destruct (IH _ _ _ eq_refl) as [-> ->]. now injection H as <- <- _.
    + now injection H as <- <- _.
Qed.

(** X15.  While no callback is registered an iteration delivers nothing,
    yet it stores the returned cursor as always: the events of such a
    batch are consumed without anyone seeing them, and the channel is
    otherwise left as it was. *)
Theorem no_callback_batch_is_consumed (w w' : World) (i : nat) (data : GetLogData)
    (tr : list Effect) (s : option (Outcome unit)) :
  messageCallback (chan w) = None ->
  resume env i (GetLogDone (Resolved data)) w = Some (w', tr, s) ->
  chan w' = fst (store_cursor data (chan w)) /\
  Forall (fun e => is_Invoke e = false) tr.
Proof.
  intros Hcb H. apply resume_getLog_inv in H as (next & H & _).
  assert (Hcb1 : messageCallback (fst (store_cursor data (chan w))) = None).
  { unfold store_cursor. now destruct (data_cursor data) as [[|x k]|]. }
  pose proof (store_cursor_trace data (chan w)) as Hst.
  assert (Hst' : Forall (fun e => is_Invoke e = false) (snd (store_cursor data (chan w)))).
  { eapply Forall_impl; [exact Hst|]. now intros e [He _]. }
  unfold try_after_getLog in H.
  destruct (store_cursor data (chan w)) as [c1 tr1]; simpl in *.
  assert (Hend : exists e,
            after_try env (c1, tr1, e) = (chan w', tr, next)).
  { destruct (agent c1); [|eauto].
    destruct (logs data) as [ls|]; [|eauto].
    destruct (process_logs env _ ls c1) as [[c2 tr2] k] eqn:E.
    destruct (process_logs_no_callback _ _ _ _ _ _ Hcb1 E) as [-> ->].
    rewrite app_nil_r in H. destruct k; eauto. }
  destruct Hend as (e & Hend).
  apply after_try_trace in Hend as (-> & tail & -> & Hi & _).
  split; [reflexivity|]. apply Forall_app. auto.
Qed.

End Delivery.

Lemma batch_delivered_in_order_witness :
  resume env0 0
    (GetLogDone (Resolved {| data_cursor := Some "c1";
       logs := Some [read_receipt; created "did:plc:you" "hello";
                     created "did:plc:me" "echo"] |}))
    (logged_in_world AwaitGetLog) =
    Some ({| chan := set_cursor (Some "c1") (chan (logged_in_world AwaitGetLog));
             heap := heap (logged_in_world AwaitGetLog);
             pool := [AwaitSleep] |},
          [SetCursor "c1"; Invoke hello; Sleep 5000], None) /\
  [SetCursor "c1"; Invoke hello; Sleep 5000] =
    [SetCursor "c1"] ++
    map Invoke
      (omap (delivery env0 {[ "did:plc:you" := "you.bsky.social" ]} (Some "did:plc:me"))
            [read_receipt; created "did:plc:you" "hello"; created "did:plc:me" "echo"]) ++
    [Sleep 5000].
Proof.
  assert (Hres :
    resume env0 0
      (GetLogDone (Resolved {| data_cursor := Some "c1";
         logs := Some [read_receipt; created "did:plc:you" "hello";
                       created "did:plc:me" "echo"] |}))
      (logged_in_world AwaitGetLog) =
      Some ({| chan := set_cursor (Some "c1") (chan (logged_in_world AwaitGetLog));
               heap := heap (logged_in_world AwaitGetLog);
               pool := [AwaitSleep] |},
            [SetCursor "c1"; Invoke hello; Sleep 5000], None))
    by (vm_compute; reflexivity).
  split; [exact Hres|].
  exact (proj1 (batch_delivered_in_order env0 (logged_in_world AwaitGetLog) _ 0
                  {| data_cursor := Some "c1";
                     logs := Some [read_receipt; created "did:plc:you" "hello";
                                   created "did:plc:me" "echo"] |}
                  0 _ quiet _ _ eq_refl eq_refl eq_refl (fun _ => eq_refl)
                  ltac:(repeat constructor) Hres)).
Defined.

Lemma throw_drops_rest_of_batch_witness :
  resume env0 0
    (GetLogDone (Resolved {| data_cursor := Some "c1";
       logs := Some ([created "did:plc:you" "hello"] ++ senderless
                     :: [created "did:plc:you" "late"]) |}))
    (logged_in_world AwaitGetLog) =
    Some ({| chan := set_cursor (Some "c1") (chan (logged_in_world AwaitGetLog));
             heap := heap (logged_in_world AwaitGetLog);
             pool := [AwaitSleep] |},
          [SetCursor "c1"; Invoke hello;
           ConsoleError "Bluesky poll error:" "TypeError"; Sleep 5000], None).
Proof.
  destruct (throw_drops_rest_of_batch env0 (logged_in_world AwaitGetLog) 0
              {| data_cursor := Some "c1";
                 logs := Some ([created "did:plc:you" "hello"] ++ senderless
                               :: [created "did:plc:you" "late"]) |}
              0 [created "did:plc:you" "hello"] [created "did:plc:you" "late"]
              senderless
              (set_cursor (Some "c1") (chan (logged_in_world AwaitGetLog)))
              (set_cursor (Some "c1") (chan (logged_in_world AwaitGetLog)))
              [Invoke hello] [] TypeError
              eq_refl eq_refl ltac:(vm_compute; reflexivity) eq_refl)
    as (Hcut & _).
  rewrite Hcut. vm_compute. reflexivity.
Defined.

Lemma no_callback_batch_is_consumed_witness :
  messageCallback (chan (deaf_world AwaitGetLog)) = None /\
  resume env0 0 (GetLogDone (Resolved hello_batch)) (deaf_world AwaitGetLog) =
    Some ({| chan := set_cursor (Some "c1") (chan (deaf_world AwaitGetLog));
             heap := heap (deaf_world AwaitGetLog);
             pool := [AwaitSleep] |},
          [SetCursor "c1"; Sleep 5000], None) /\
  Forall (fun e => is_Invoke e = false) [SetCursor "c1"; Sleep 5000].
Proof.
  assert (Hres :
    resume env0 0 (GetLogDone (Resolved hello_batch)) (deaf_world AwaitGetLog) =
      Some ({| chan := set_cursor (Some "c1") (chan (deaf_world AwaitGetLog));
               heap := heap (deaf_world AwaitGetLog);
               pool := [AwaitSleep] |},
            [SetCursor "c1"; Sleep 5000], None))
    by (vm_compute; reflexivity).
  split; [reflexivity|]. split; [exact Hres|].
  exact (proj2 (no_callback_batch_is_consumed env0 (deaf_world AwaitGetLog) _ 0
                  hello_batch _ _ eq_refl Hres)).
Defined.

(** ** What the loop leaves of the channel *)

Section Frame.

Variable env : Env.

(** The channel after a stretch of the [try] block on the answer of
    [getLog]: the cursor may have been stored, and [stop()] may have been
    called from the callback; nothing else. *)
Lemma try_after_getLog_state (hp : list AtpAgent) (r : Outcome GetLogData)
    (c c' : BlueskyChannel) (tr : list Effect) (e : BodyEnd) :
  try_after_getLog env hp r c = (c', tr, e) ->
  exists c0,
    (c0 = c \/ exists k, c0 = set_cursor (Some k) c) /\ stopped_or_same c0 c'.
Proof.
  unfold try_after_getLog. destruct r as [data|err].
  2: { intros [= <- _ _]. exists c. split; [now left | now left]. }
  assert (Hs : fst (store_cursor data c) = c \/
               exists k, fst (store_cursor data c) = set_cursor (Some k) c).
  { unfold store_cursor. destruct (data_cursor data) as [[|x k]|]; simpl; eauto. }
  destruct (store_cursor data c) as [c1 tr1]; simpl in Hs.
  intros H. exists c1. split; [exact Hs|].
  destruct (agent c1); [|injection H as <- _ _; now left].
  destruct (logs data) as [ls|]; [|injection H as <- _ _; now left].
  destruct (process_logs env _ ls c1) as [[c2 tr2] k] eqn:E.
  apply process_logs_spec in E as [E _].
  destruct k; injection H as <- _ _; exact E.
Qed.

Lemma poll_resume_settings (hp : list AtpAgent) (t : Task) (r : Response)
    (c c' : BlueskyChannel) (tr : list Effect) (next : option Task) :
  poll_resume env hp t r c = Some (c', tr, next) ->
  identifier c' = identifier c /\ password c' = password c /\
  messageCallback c' = messageCallback c.
Proof.
  intros H. destruct t, r; simpl in H; try discriminate.
  - injection H as <- _ _. destruct r as [data|err]; simpl; [|auto].
    destruct (convos data); simpl; auto.
  - injection H as H.
    pose proof (after_try_chan env (try_after_refresh c)) as Ha.
    rewrite H in Ha. simpl in Ha. subst c'.
    unfold try_after_refresh. now destruct (agent c).
  - injection H as H.
    pose proof (after_try_chan env (try_after_getLog env hp r c)) as Ha.
    rewrite H in Ha. simpl in Ha. subst c'.
    destruct (try_after_getLog env hp r c) as [[c1 tr1] e1] eqn:E. simpl.
    apply try_after_getLog_state in E as (c0 & [->|[k ->]] & [->| ->]); auto.
  - injection H as <- _ _. auto.
Qed.

Lemma step_settings (a : Action) (w w' : World) (tr : list Effect)
    (s : option (Outcome unit)) :
  step env a w = Some (w', tr, s) ->
  (is_Configure a = false ->
   identifier (chan w') = identifier (chan w) /\
   password (chan w') = password (chan w)) /\
  (is_OnMessage a = false ->
   messageCallback (chan w') = messageCallback (chan w)).
Proof.
  intros H. apply step_chan in H.
  destruct a; simpl; try (rewrite H; split; [intros _; split|intros _]; reflexivity).
  - rewrite H. split; [discriminate | reflexivity].
  - destruct H as [->|[ag ->]]; auto.
  - rewrite H. split; [auto | discriminate].
  - destruct H as (t & _ & H). destruct t.
    + destruct H as [(err & _ & ->)|(d & _ & ->)]; auto.
    + rewrite H. auto.
    + destruct H as (next & H). apply poll_resume_settings in H. tauto.
    + destruct H as (next & H). apply poll_resume_settings in H. tauto.
    + destruct H as (next & H). apply poll_resume_settings in H. tauto.
    + destruct H as (next & H). apply poll_resume_settings in H. tauto.
Qed.

(** X16.  The credentials change only through [configure] and the
    registered callback only through [onMessage]: along every run without
    a call of [configure], identifier and password are what they were, so
    the channel stays configured through [stop()], failed logins and
    restarts; along every run without a call of [onMessage], the callback
    is the one registered before. *)
Theorem settings_survive (acts : list Action) (w w' : World) (tr : list Effect) :
  run env acts w = Some (w', tr) ->
  (Forall (fun a => is_Configure a = false) acts ->
   identifier (chan w') = identifier (chan w) /\
   password (chan w') = password (chan w) /\
   isConfigured (chan w') = isConfigured (chan w)) /\
  (Forall (fun a => is_OnMessage a = false) acts ->
   messageCallback (chan w') = messageCallback (chan w)).
Proof.
  revert w tr. induction acts as [|a acts IH]; simpl; intros w tr H.
  - injection H as <- _. auto.
  - destruct (step env a w) as [[[w1 tr1] s1]|] eqn:E; [|discriminate].
    destruct (run env acts w1) as [[w2 tr2]|] eqn:E2; [|discriminate].
    injection H as <- _. destruct (IH _ _ E2) as [IH1 IH2].
    destruct (step_settings _ _ _ _ _ E) as [H1 H2]. split.
    + intros Hall. apply Forall_cons in Hall as [Ha Hall].
      destruct (IH1 Hall) as (Hi & Hp & _). destruct (H1 Ha) as [Hi1 Hp1].
      unfold isConfigured. rewrite Hi, Hp, Hi1, Hp1. auto.
    + intros Hall. apply Forall_cons in Hall as [Ha Hall].
      rewrite (IH2 Hall). auto.
Qed.

End Frame.

Lemma settings_survive_witness :
  run env0
    [ Stop; Start; Resume 1 (LoginDone (Rejected "AuthenticationRequired"));
      Resume 0 (ListConvosDone (Rejected "network error")) ]
    (logged_in_world AwaitListConvos) =
    Some ({| chan := stop (chan (logged_in_world AwaitListConvos));
             heap := heap (logged_in_world AwaitListConvos) ++
                     [ {| service := "https://bsky.social"; session_did := None |} ];
             pool := [AwaitRefresh] |},
          [Login 1 "me.bsky.social" "app-pw";
           ConsoleError "Bluesky login failed:" "AuthenticationRequired"]) /\
  isConfigured (stop (chan (logged_in_world AwaitListConvos))) = true /\
  messageCallback (stop (chan (logged_in_world AwaitListConvos))) = Some quiet.
Proof.
  assert (Hrun :
    run env0
      [ Stop; Start; Resume 1 (LoginDone (Rejected "AuthenticationRequired"));
        Resume 0 (ListConvosDone (Rejected "network error")) ]
      (logged_in_world AwaitListConvos) =
      Some ({| chan := stop (chan (logged_in_world AwaitListConvos));
               heap := heap (logged_in_world AwaitListConvos) ++
                       [ {| service := "https://bsky.social"; session_did := None |} ];
               pool := [AwaitRefresh] |},
            [Login 1 "me.bsky.social" "app-pw";
             ConsoleError "Bluesky login failed:" "AuthenticationRequired"]))
    by (vm_compute; reflexivity).
  destruct (settings_survive env0 _ _ _ _ Hrun) as [Hcred Hcb].
  split; [exact Hrun|]. split.
  - destruct Hcred as (_ & _ & Hc); [repeat constructor|].
    transitivity (isConfigured (chan (logged_in_world AwaitListConvos)));
      [exact Hc | reflexivity].
  - transitivity (messageCallback (chan (logged_in_world AwaitListConvos)));
      [apply Hcb; repeat constructor | reflexivity].
Defined.

(** ** The messages the callback sees *)

Lemma or_else_nonempty (v : option string) (d : string) :
  d <> "" -> or_else v d <> "".
Proof. intros Hd. destruct v as [[|x s]|]; simpl; congruence. Qed.

Lemma has_prefix_groupId_of (k : string) : has_prefix (groupId_of k) = true.
Proof. unfold has_prefix, groupId_of. now rewrite strip_prefix_app. Qed.

Lemma inbound_well_shaped (env : Env) (entry : LogEntry) (msgView : MessageView)
    (handle : string) :
  well_shaped (inbound env entry msgView handle).
Proof.
  split; [reflexivity|]. split.
  - simpl. now apply or_else_nonempty.
  - apply (has_prefix_groupId_of (convoId entry)).
Qed.

Section Shape.

Variable env : Env.

Lemma process_log_shape (my : option string) (log : LogEntry)
    (c c' : BlueskyChannel) (tr : list Effect) (k : Completion) (m : InboundMessage) :
  process_log env my log c = (c', tr, k) -> In (Invoke m) tr -> well_shaped m.
Proof.
  unfold process_log.
  destruct (negb (String.eqb (log_type log) logCreateMessage));
    [intros [= _ <- _] []|].
  destruct (message log) as [msg|]; [|intros [= _ <- _] []].
  destruct (negb (String.eqb (msg_type msg) messageView)); [intros [= _ <- _] []|].
  destruct (msg_sender msg) as [s|]; [|intros [= _ <- _] []].
  destruct (strict_eq (did s) my); [intros [= _ <- _] []|].
  intros H Hin. apply invoke_callback_spec in H as [_ [-> | ->]]; [destruct Hin|].
  destruct Hin as [[= <-]|[]]. apply inbound_well_shaped.
Qed.

Lemma process_logs_shape (my : option string) (ls : list LogEntry) (m : InboundMessage) :
  forall (c c' : BlueskyChannel) (tr : list Effect) (k : Completion),
  process_logs env my ls c = (c', tr, k) -> In (Invoke m) tr -> well_shaped m.
Proof.
  induction ls as [|log ls IH]; simpl; intros c c' tr k H Hin.
  - injection H as _ <- _. destruct Hin.
  - destruct (process_log env my log c) as [[c1 tr1] k1] eqn:E1.
    destruct k1 as [|e].
    + destruct (process_logs env my ls c1) as [[c2 tr2] k2] eqn:E2.
      injection H as _ <- _. apply in_app_or in Hin as [Hin|Hin].
      * eapply process_log_shape; eauto.
      * eapply IH; eauto.
    + injection H as _ <- _. eapply process_log_shape; eauto.
Qed.

Lemma try_after_getLog_shape (hp : list AtpAgent) (r : Outcome GetLogData)
    (c c' : BlueskyChannel) (tr : list Effect) (e : BodyEnd) (m : InboundMessage) :
  try_after_getLog env hp r c = (c', tr, e) -> In (Invoke m) tr -> well_shaped m.
Proof.
  unfold try_after_getLog. destruct r as [data|err]; [|intros [= _ <- _] []].
  pose proof (store_cursor_trace data c) as Hst.
  destruct (store_cursor data c) as [c1 tr1]; simpl in Hst.
  assert (Hno : ~ In (Invoke m) tr1).
  { intros Hin. rewrite List.Forall_forall in Hst. now destruct (Hst _ Hin). }
  destruct (agent c1); [|intros [= _ <- _] Hin; contradiction].
  destruct (logs data) as [ls|]; [|intros [= _ <- _] Hin; contradiction].
  destruct (process_logs env _ ls c1) as [[c2 tr2] k] eqn:E.
  intros H Hin.
  assert (Hin' : In (Invoke m) (tr1 ++ tr2)) by (destruct k; now injection H as _ <- _).
  apply in_app_or in Hin' as [Hin'|Hin']; [contradiction|].
  eapply process_logs_shape; eauto.
Qed.

(** X17.  The callback is invoked in no other step than the one in which
    a [getLog] returns, and every message it is handed is tagged
    ["bluesky"], has a content that is not empty (the placeholder stands
    in for an absent or empty text) and has a group id that starts with
    ["bsky:"], which [send()] maps back to a conversation id. *)
Theorem callback_sees_well_shaped (a : Action) (w w' : World) (tr : list Effect)
    (s : option (Outcome unit)) (m : InboundMessage) :
  step env a w = Some (w', tr, s) -> In (Invoke m) tr ->
  well_shaped m /\
  groupId_of (convoId_of (im_groupId m)) = im_groupId m /\
  exists i data, a = Resume i (GetLogDone (Resolved data)).
Proof.
  intros H Hin.
  assert (Hgoal : well_shaped m /\
                  exists i data, a = Resume i (GetLogDone (Resolved data))).
  { revert Hin. destruct a; simpl in H;
      try (injection H as _ <- _; intros []).
    - unfold start in H.
      destruct (negb (nonempty (identifier (chan w))) || negb (nonempty (password (chan w))));
        [|destruct (running (chan w))]; injection H as _ <- _;
        simpl; intuition discriminate.
    - unfold send in H. destruct (agent (chan w)); injection H as _ <- _;
        simpl; intuition discriminate.
    - destruct r as [o|o|o| |o|].
      + task_at H. injection H as H.
        unfold start_resume, poll_head, refresh_enter in H.
        destruct o as [d|err]; [|injection H as _ <- _; simpl; intuition discriminate].
        simpl in H. destruct (agent (chan w)); injection H as _ <- _;
          simpl; intuition discriminate.
      + task_at H. injection H as _ <- _. intros [].
      + task_at H. injection H as _ <- _. intros [].
      + assert (Ht : pool w !! i = Some AwaitRefresh) by (task_at H; reflexivity).
        apply (resume_refresh_inv env i w w' tr s Ht) in H as (next & H & _).
        unfold try_after_refresh in H.
        destruct (agent (chan w)); simpl in H;
          [|destruct (negb (running (chan w)))]; injection H as _ <- _;
          simpl; intuition discriminate.
      + intros Hin. apply resume_getLog_inv in H as (next & H & _).
        destruct (try_after_getLog env (heap w) o (chan w)) as [[c1 tr1] e1] eqn:E.
        apply after_try_trace in H as (_ & tail & -> & Hi & _).
        apply in_app_or in Hin as [Hin|Hin].
        * split; [eapply try_after_getLog_shape; eauto|].
          destruct o as [data|err]; [eauto|].
          simpl in E. injection E as _ <- _. destruct Hin.
        * rewrite List.Forall_forall in Hi. specialize (Hi _ Hin). discriminate.
      + task_at H. simpl in H. injection H as _ <- _.
        unfold poll_head, refresh_enter.
        destruct (running (chan w) && bool_decide (is_Some (agent (chan w))));
          [destruct (agent (chan w))|]; simpl; intuition discriminate. }
  destruct Hgoal as [Hw Hex]. split; [exact Hw|]. split; [|exact Hex].
  destruct Hw as (_ & _ & Hp). unfold has_prefix in Hp. unfold convoId_of.
  destruct (strip_prefix bsky_prefix (im_groupId m)) as [rest|] eqn:E; [|discriminate].
  apply strip_prefix_inv in E. now rewrite E.
Qed.

End Shape.

Lemma callback_sees_well_shaped_witness :
  step env0 (Resume 0 (GetLogDone (Resolved
       {| data_cursor := Some "c1";
          logs := Some [ {| log_type := logCreateMessage; convoId := "abc123";
                            message := Some {| msg_type := messageView; msg_id := "m4";
                                               msg_sender := Some {| did := "did:plc:new" |};
                                               msg_text := Some "";
                                               msg_sentAt := "not a date" |} |} ] |})))
    (logged_in_world AwaitGetLog) =
    Some ({| chan := set_cursor (Some "c1") (chan (logged_in_world AwaitGetLog));
             heap := heap (logged_in_world AwaitGetLog);
             pool := [AwaitSleep] |},
          [SetCursor "c1";
           Invoke {| im_id := "m4"; im_groupId := "bsky:abc123";
                     im_sender := "did:plc:new";
                     im_content := "[Non-text message]";
                     im_timestamp := None; im_channel := "bluesky" |};
           Sleep 5000], None) /\
  well_shaped {| im_id := "m4"; im_groupId := "bsky:abc123";
                 im_sender := "did:plc:new";
                 im_content := "[Non-text message]";
                 im_timestamp := None; im_channel := "bluesky" |}.
Proof.
  assert (Hstep :
    step env0 (Resume 0 (GetLogDone (Resolved
         {| data_cursor := Some "c1";
            logs := Some [ {| log_type := logCreateMessage; convoId := "abc123";
                              message := Some {| msg_type := messageView; msg_id := "m4";
                                                 msg_sender := Some {| did := "did:plc:new" |};
                                                 msg_text := Some "";
                                                 msg_sentAt := "not a date" |} |} ] |})))
      (logged_in_world AwaitGetLog) =
      Some ({| chan := set_cursor (Some "c1") (chan (logged_in_world AwaitGetLog));
               heap := heap (logged_in_world AwaitGetLog);
               pool := [AwaitSleep] |},
            [SetCursor "c1";
             Invoke {| im_id := "m4"; im_groupId := "bsky:abc123";
                       im_sender := "did:plc:new";
                       im_content := "[Non-text message]";
                       im_timestamp := None; im_channel := "bluesky" |};
             Sleep 5000], None))
    by (vm_compute; reflexivity).
  split; [exact Hstep|].
  exact (proj1 (callback_sees_well_shaped env0 _ _ _ _ _ _ Hstep
                  (or_intror (or_introl eq_refl)))).
Defined.
